(** * The LoadTest job controller (controllers/job.go)

    A shallow embedding of [MergePreservingExistingKeys], [labels], [job]
    and [ensureJob], followed by the properties of the specification
    that concern them.

    Go maps are reference values: they live in a store and are named by
    a reference, so that an in-place update made through one name is
    seen through every other name of the same map.  Logging, cluster
    calls and recorded events are threaded through an explicit state.
    The cluster client is an interface: [ensureJob] is stated over any
    client, and a cluster in memory gives one to run it on. *)

From stdpp Require Import base numbers strings list gmap fin_maps.

Local Open Scope string_scope.
Local Open Scope list_scope.

(** ** A state monad *)

Definition State (S A : Type) : Type := S → A * S.

Definition st_ret {S A} (a : A) : State S A := λ s, (a, s).
Definition st_bind {S A B} (m : State S A) (k : A → State S B) : State S B :=
  λ s, let (a, s') := m s in k a s'.
Definition st_modify {S} (f : S → S) : State S unit := λ s, (tt, f s).

Declare Scope st_scope.
Delimit Scope st_scope with st.
Notation "x <- m ;; k" := (st_bind m (λ x, k))
  (at level 100, m at next level, right associativity) : st_scope.
Notation "m ;;; k" := (st_bind m (λ _ : unit, k))
  (at level 100, right associativity) : st_scope.

(** ** Integers

    Go's [int] is 64 bits wide on the platforms the operator is built
    for; [int32(x)] keeps the low 32 bits, read as a signed number. *)

Definition int32_min : Z := -2147483648.
Definition int32_max : Z := 2147483647.

Definition int32 (x : Z) : Z := ((x + 2147483648) `mod` 4294967296 - 2147483648)%Z.

(** ** Slices

    A slice is [nil] or holds a sequence of elements; [[]T{}] is the
    empty slice that is not [nil].  No slice of this file is updated in
    place after it was shared, so the backing arrays are not modelled. *)

Inductive slice (A : Type) : Type :=
| nil_slice
| Slice (l : list A).
Arguments nil_slice {A}.
Arguments Slice {A} l.

Definition elems {A} (s : slice A) : list A :=
  match s with nil_slice => [] | Slice l => l end.

Definition append {A} (s : slice A) (xs : list A) : slice A :=
  match s, xs with
  | nil_slice, [] => nil_slice
  | _, _ => Slice (elems s ++ xs)
  end.

(** ** Resource maps in the store *)

(** [resource.Quantity], as the text it was parsed from. *)
Record Quantity := MustParse { quantity_text : string }.

Global Instance Quantity_eq_dec : EqDecision Quantity.
Proof. solve_decision. Defined.

Definition ResourceCPU : string := "cpu".
Definition ResourceMemory : string := "memory".

(** A value of type [map[corev1.ResourceName]resource.Quantity]. *)
Inductive ResourceList : Type :=
| nil_map
| map_at (l : positive).

Global Instance ResourceList_eq_dec : EqDecision ResourceList.
Proof. solve_decision. Defined.

(** ** Errors

    A Go [error] value is [nil] or an error: [option error].  An error
    of the cluster API carries a reason, which is what
    [k8error.IsNotFound] looks at; every other error ([errors.New], a
    failure of the transport) has the unknown reason. *)

Inductive StatusReason :=
| StatusReasonUnknown
| StatusReasonNotFound
| StatusReasonAlreadyExists
| StatusReasonForbidden
| StatusReasonTimeout
| StatusReasonInternalError.

Global Instance StatusReason_eq_dec : EqDecision StatusReason.
Proof. solve_decision. Defined.

Record error := { reason : StatusReason; message : string }.

Global Instance error_eq_dec : EqDecision error.
Proof. solve_decision. Defined.

(** [errors.New(text)] *)
Definition errors_New (text : string) : error :=
  {| reason := StatusReasonUnknown; message := text |}.

(** [k8error.IsNotFound(err)], for an [err] that is not [nil]. *)
Definition IsNotFound (err : error) : bool :=
  bool_decide (reason err = StatusReasonNotFound).

(** One call of the logger: [logger.Info(msg, kvs...)] has no error,
    [logger.Error(err, msg, kvs...)] has one. *)
Record LogEntry := {
  log_error : option error;
  log_msg : string;
  log_kvs : list (string * string) }.

(** The part of the process state that [job] touches: the maps it
    reads and writes, and what was handed to the logger. *)
Record Proc := {
  maps : gmap positive (gmap string Quantity);
  logged : list LogEntry }.

Definition set_maps (f : gmap positive (gmap string Quantity) → gmap positive (gmap string Quantity))
    (p : Proc) : Proc :=
  {| maps := f (maps p); logged := logged p |}.

Definition add_log (e : LogEntry) (p : Proc) : Proc :=
  {| maps := maps p; logged := logged p ++ [e] |}.

(** The content of a map; a [nil] map reads as empty. *)
Definition content (p : Proc) (m : ResourceList) : gmap string Quantity :=
  match m with
  | nil_map => ∅
  | map_at l => default ∅ (maps p !! l)
  end.

Definition live (p : Proc) (m : ResourceList) : Prop :=
  match m with
  | nil_map => True
  | map_at l => l ∈ dom (maps p)
  end.

Global Instance live_dec p m : Decision (live p m).
Proof. destruct m; simpl; apply _. Defined.

(** [make(map[K]V, n)] and a map literal: a new map in the store. *)
Definition make_map (init : gmap string Quantity) : State Proc positive :=
  λ p, let l := fresh (dom (maps p)) in (l, set_maps (insert l init) p).

(** [_, exists := m[k]] *)
Definition map_has (l : positive) (k : string) : State Proc bool :=
  λ p, (bool_decide (is_Some (content p (map_at l) !! k)), p).

(** [m[k] = v] *)
Definition map_set (l : positive) (k : string) (v : Quantity) : State Proc unit :=
  λ p, (tt, set_maps (λ h, <[l := <[k := v]> (default ∅ (h !! l))]> h) p).

(** The entries a [range] over the map visits.  Go leaves the order
    open; [range_map] fixes one, and [merge_loop_order] shows that the
    loop below does not depend on it.  The entries are read when the
    loop starts: the only loop of this file that ranges over the map it
    writes to ([dest] and [src] one map) writes nothing. *)
Definition range_map (m : ResourceList) : State Proc (list (string * Quantity)) :=
  λ p, (map_to_list (content p m), p).

Local Open Scope st_scope.

(** The body of [for k, v := range src]. *)
Fixpoint merge_loop (dest : positive) (entries : list (string * Quantity)) : State Proc unit :=
  match entries with
  | [] => st_ret tt
  | (k, v) :: rest =>
      exists_ <- map_has dest k ;;
      (if negb exists_ then map_set dest k v else st_ret tt) ;;;
      merge_loop dest rest
  end.

Definition MergePreservingExistingKeys (dest src : ResourceList) : State Proc ResourceList :=
  match dest with
  | nil_map =>
      match src with
      | nil_map => st_ret nil_map
      | map_at _ =>
          d <- make_map ∅ ;;
          entries <- range_map src ;;
          merge_loop d entries ;;;
          st_ret (map_at d)
      end
  | map_at d =>
      entries <- range_map src ;;
      merge_loop d entries ;;;
      st_ret (map_at d)
  end.

(** ** The API objects

    The structs of the cluster API and of the LoadTest resource, with
    the fields this file reads or writes.  Each struct has a module of
    its own, so that fields keep their Go names. *)

Module OwnerReference.
Record t := {
  APIVersion : string;
  Kind : string;
  Name : string;
  UID : string;
  Controller : option bool;
  BlockOwnerDeletion : option bool }.
End OwnerReference.

(** Label maps are built by a map literal and never written to again,
    so they are kept as values; the [nil] map reads as the empty one. *)
Module ObjectMeta.
Record t := {
  Name : string;
  Namespace : string;
  UID : string;
  Labels : gmap string string;
  OwnerReferences : list OwnerReference.t }.
Definition zero : t :=
  {| Name := ""; Namespace := ""; UID := ""; Labels := ∅; OwnerReferences := [] |}.
End ObjectMeta.

Module ObjectFieldSelector.
Record t := { FieldPath : string }.
End ObjectFieldSelector.

Module EnvVarSource.
Record t := { FieldRef : option ObjectFieldSelector.t }.
End EnvVarSource.

Module EnvVar.
Record t := {
  Name : string;
  Value : string;
  ValueFrom : option EnvVarSource.t }.
End EnvVar.

(** [LocalObjectReference] is embedded: its [Name] is a field here. *)
Module SecretEnvSource.
Record t := { Name : string }.
End SecretEnvSource.

Module EnvFromSource.
Record t := { SecretRef : option SecretEnvSource.t }.
End EnvFromSource.

Module SecretVolumeSource.
Record t := { SecretName : string }.
End SecretVolumeSource.

Module VolumeSource.
Record t := { Secret : option SecretVolumeSource.t }.
End VolumeSource.

Module Volume.
Record t := { Name : string; VolumeSource : VolumeSource.t }.
End Volume.

Module VolumeMount.
Record t := { Name : string; MountPath : string }.
End VolumeMount.

Module ResourceRequirements.
Record t := { Limits : ResourceList; Requests : ResourceList }.
End ResourceRequirements.

Definition PullIfNotPresent : string := "IfNotPresent".

Module Container.
Record t := {
  Name : string;
  Image : string;
  ImagePullPolicy : string;
  Resources : ResourceRequirements.t;
  Args : slice string;
  EnvFrom : slice EnvFromSource.t;
  Env : slice EnvVar.t;
  VolumeMounts : slice VolumeMount.t }.
End Container.

Module PodSpec.
Record t := {
  Containers : slice Container.t;
  RestartPolicy : string;
  Volumes : slice Volume.t }.
Definition zero : t :=
  {| Containers := nil_slice; RestartPolicy := ""; Volumes := nil_slice |}.
End PodSpec.

Module PodTemplateSpec.
Record t := { ObjectMeta : ObjectMeta.t; Spec : PodSpec.t }.
End PodTemplateSpec.

Inductive CompletionMode := NonIndexedCompletion | IndexedCompletion.

(** The four pointer fields point to variables of [job] that nothing
    else names: [None] is the [nil] pointer, [Some x] a pointer to [x]. *)
Module JobSpec.
Record t := {
  Parallelism : option Z;
  Completions : option Z;
  CompletionMode : option CompletionMode;
  BackoffLimit : option Z;
  Template : PodTemplateSpec.t }.
End JobSpec.

Module Job.
Record t := { ObjectMeta : ObjectMeta.t; Spec : JobSpec.t }.
(** [&v1.Job{}] *)
Definition zero : t :=
  {| ObjectMeta := ObjectMeta.zero;
     Spec := {| JobSpec.Parallelism := None; JobSpec.Completions := None;
                JobSpec.CompletionMode := None; JobSpec.BackoffLimit := None;
                JobSpec.Template :=
                  {| PodTemplateSpec.ObjectMeta := ObjectMeta.zero;
                     PodTemplateSpec.Spec := PodSpec.zero |} |} |}.
End Job.

Module SecretMount.
Record t := { Name : string; MountPoint : string }.
End SecretMount.

(** Modelled from the spec: the LoadTest types are declared in
    api/v1alpha1, outside this file.  The spec gives [count] as an
    integer, [image], [secretEnvSource] and [usersFile] as strings,
    [args] as a sequence of strings, [resources] and [secretMount] as
    optional; [job] converts [Count] with [int32(...)], so it is Go's
    [int], and tests [Resources] and [SecretMount] against [nil], so
    they are pointers. *)
Module LoadTestSpec.
Record t := {
  Count : Z;
  Image : string;
  Args : slice string;
  Resources : option ResourceRequirements.t;
  SecretEnvSource : string;
  SecretMount : option SecretMount.t;
  UsersFile : string }.
End LoadTestSpec.

Module LoadTest.
Record t := { ObjectMeta : ObjectMeta.t; Spec : LoadTestSpec.t }.
Definition Name (v : t) : string := ObjectMeta.Name (ObjectMeta v).
Definition Namespace (v : t) : string := ObjectMeta.Namespace (ObjectMeta v).
End LoadTest.

(** [Count] is a Go [int]. *)
Definition int_range (x : Z) : Prop := (-9223372036854775808 ≤ x ≤ 9223372036854775807)%Z.

(** ** The reconciler and its collaborators *)

(** [runtime.Scheme], as far as [SetControllerReference] asks it: the
    API version and kind registered for the LoadTest type, if any. *)
Record Scheme := { LoadTestKind : option (string * string) }.

(** Modelled from the spec: the telemetry configuration is declared
    outside this file; [ToK8sEnvVar] produces environment entries from
    the configuration alone, an ordered sequence that is opaque here. *)
Record TelemetryConfig := { ToK8sEnvVar : slice EnvVar.t }.

(** The cluster client, over a cluster state [C].  [Get] gives the
    object found or an error; [Create] gives [nil] or an error. *)
Record Client (C : Type) := {
  client_Get : string * string → C → (Job.t + error) * C;
  client_Create : Job.t → C → option error * C }.
Arguments client_Get {C} _ _ _.
Arguments client_Create {C} _ _ _.

Record LoadTestReconciler (C : Type) := {
  rClient : Client C;
  rScheme : Scheme;
  rTelemetryConfig : TelemetryConfig }.
Arguments rClient {C} _.
Arguments rScheme {C} _.
Arguments rTelemetryConfig {C} _.

(** ** labels *)

Definition labels (v : LoadTest.t) (component : string) : gmap string string :=
  <["artillery.io/test-name" := LoadTest.Name v]>
  (<["artillery.io/component" := component]>
  (<["artillery.io/part-of" := "loadtest"]> ∅)).

(** ** SetControllerReference

    The function of controller-runtime: it checks the name spaces of
    owner and object, asks the scheme for the owner's kind, refuses an
    object that another controller owns, and otherwise records the
    owner in the object's owner references.  It writes to no other
    field.  Two references are compared here by API version, kind and
    name. *)

Definition validateOwner (owner object : ObjectMeta.t) : option error :=
  if bool_decide (ObjectMeta.Namespace owner ≠ "") then
    if bool_decide (ObjectMeta.Namespace object = "") then
      Some (errors_New "cluster-scoped resource must not have a namespace-scoped owner")
    else if bool_decide (ObjectMeta.Namespace owner ≠ ObjectMeta.Namespace object) then
      Some (errors_New "cross-namespace owner references are disallowed")
    else None
  else None.

Definition referSameObject (a b : OwnerReference.t) : bool :=
  bool_decide (OwnerReference.APIVersion a = OwnerReference.APIVersion b
               ∧ OwnerReference.Kind a = OwnerReference.Kind b
               ∧ OwnerReference.Name a = OwnerReference.Name b).

Definition GetControllerOf (object : ObjectMeta.t) : option OwnerReference.t :=
  head (filter (λ ref, OwnerReference.Controller ref = Some true)
               (ObjectMeta.OwnerReferences object)).

Fixpoint upsertOwnerRef (ref : OwnerReference.t) (owners : list OwnerReference.t)
    : list OwnerReference.t :=
  match owners with
  | [] => [ref]
  | r :: rest => if referSameObject r ref then ref :: rest else r :: upsertOwnerRef ref rest
  end.

Definition set_owners (owners : list OwnerReference.t) (j : Job.t) : Job.t :=
  {| Job.ObjectMeta :=
       {| ObjectMeta.Name := ObjectMeta.Name (Job.ObjectMeta j);
          ObjectMeta.Namespace := ObjectMeta.Namespace (Job.ObjectMeta j);
          ObjectMeta.UID := ObjectMeta.UID (Job.ObjectMeta j);
          ObjectMeta.Labels := ObjectMeta.Labels (Job.ObjectMeta j);
          ObjectMeta.OwnerReferences := owners |};
     Job.Spec := Job.Spec j |}.

Definition SetControllerReference (owner : LoadTest.t) (controlled : Job.t) (scheme : Scheme)
    : Job.t * option error :=
  match validateOwner (LoadTest.ObjectMeta owner) (Job.ObjectMeta controlled) with
  | Some err => (controlled, Some err)
  | None =>
      match LoadTestKind scheme with
      | None => (controlled, Some (errors_New "no kind is registered for the type"))
      | Some (apiVersion, kind) =>
          let ref := {| OwnerReference.APIVersion := apiVersion;
                        OwnerReference.Kind := kind;
                        OwnerReference.Name := LoadTest.Name owner;
                        OwnerReference.UID := ObjectMeta.UID (LoadTest.ObjectMeta owner);
                        OwnerReference.Controller := Some true;
                        OwnerReference.BlockOwnerDeletion := Some true |} in
          match GetControllerOf (Job.ObjectMeta controlled) with
          | Some existing =>
              if referSameObject existing ref then
                (set_owners (upsertOwnerRef ref
                   (ObjectMeta.OwnerReferences (Job.ObjectMeta controlled))) controlled, None)
              else (controlled, Some (errors_New "object is already owned by another controller"))
          | None =>
              (set_owners (upsertOwnerRef ref
                 (ObjectMeta.OwnerReferences (Job.ObjectMeta controlled))) controlled, None)
          end
      end
  end.

(** ** job *)

(** [logger.Error(err, msg, kvs...)] and [logger.Info(msg, kvs...)] *)
Definition logger_Error (err : error) (msg : string) (kvs : list (string * string))
    : State Proc unit :=
  st_modify (add_log {| log_error := Some err; log_msg := msg; log_kvs := kvs |}).

Definition logger_Info (msg : string) (kvs : list (string * string)) : State Proc unit :=
  st_modify (add_log {| log_error := None; log_msg := msg; log_kvs := kvs |}).

(** [fmt.Sprintf("%s/%s", a, b)] *)
Definition Sprintf_path (a b : string) : string := a +:+ "/" +:+ b.

Definition is_nil_map (m : ResourceList) : bool :=
  match m with nil_map => true | map_at _ => false end.

Definition WORKER_ID : EnvVar.t :=
  {| EnvVar.Name := "WORKER_ID";
     EnvVar.Value := "";
     EnvVar.ValueFrom :=
       Some {| EnvVarSource.FieldRef :=
                 Some {| ObjectFieldSelector.FieldPath := "metadata.name" |} |} |}.

Section Job.

(** The package constant [WorkerImage], declared outside this file. *)
Variable WorkerImage : string.

Context {C : Type}.

Definition job (r : LoadTestReconciler C) (v : LoadTest.t) : State Proc Job.t :=
  let spec := LoadTest.Spec v in
  let parallelism : Z := 1%Z in
  let completions : Z := 1%Z in
  let backoffLimit : Z := 0%Z in
  let parallelism :=
    if (0 <? LoadTestSpec.Count spec)%Z then int32 (LoadTestSpec.Count spec) else parallelism in
  let completions :=
    if (0 <? LoadTestSpec.Count spec)%Z then int32 (LoadTestSpec.Count spec) else completions in
  let img := WorkerImage in
  limits <- make_map (<[ResourceCPU := MustParse "2"]>
                      (<[ResourceMemory := MustParse "4Gi"]> ∅)) ;;
  requests <- make_map (<[ResourceCPU := MustParse "2"]>
                        (<[ResourceMemory := MustParse "2Gi"]> ∅)) ;;
  limits <-
    match LoadTestSpec.Resources spec with
    | Some res =>
        if negb (is_nil_map (ResourceRequirements.Limits res)) then
          MergePreservingExistingKeys (ResourceRequirements.Limits res) (map_at limits)
        else st_ret (map_at limits)
    | None => st_ret (map_at limits)
    end ;;
  requests <-
    match LoadTestSpec.Resources spec with
    | Some res =>
        if negb (is_nil_map (ResourceRequirements.Requests res)) then
          MergePreservingExistingKeys (ResourceRequirements.Requests res) (map_at requests)
        else st_ret (map_at requests)
    | None => st_ret (map_at requests)
    end ;;
  let resources := {| ResourceRequirements.Limits := limits;
                      ResourceRequirements.Requests := requests |} in
  let img := if bool_decide (LoadTestSpec.Image spec ≠ "") then LoadTestSpec.Image spec else img in
  let args := Slice ["help"] in
  let args :=
    match LoadTestSpec.Args spec with
    | nil_slice => args
    | Slice _ => LoadTestSpec.Args spec
    end in
  let completion := IndexedCompletion in
  let secrets : slice EnvFromSource.t := Slice [] in
  let secrets :=
    if bool_decide (LoadTestSpec.SecretEnvSource spec ≠ "") then
      append secrets
        [ {| EnvFromSource.SecretRef :=
               Some {| SecretEnvSource.Name := LoadTestSpec.SecretEnvSource spec |} |} ]
    else secrets in
  let volumes : slice Volume.t := Slice [] in
  let volumeMounts : slice VolumeMount.t := Slice [] in
  let envVars : slice EnvVar.t := Slice [WORKER_ID] in
  mounted <-
    match LoadTestSpec.SecretMount spec with
    | Some sm =>
        let volumes :=
          append volumes
            [ {| Volume.Name := SecretMount.Name sm;
                 Volume.VolumeSource :=
                   {| VolumeSource.Secret :=
                        Some {| SecretVolumeSource.SecretName := SecretMount.Name sm |} |} |} ] in
        (if bool_decide (LoadTestSpec.UsersFile spec = "") then
           logger_Error
             (errors_New "You need to specify the UsersFile when mounting a SecretsMount")
             "" []
         else st_ret tt) ;;;
        let volumeMounts :=
          append volumeMounts
            [ {| VolumeMount.Name := SecretMount.Name sm;
                 VolumeMount.MountPath := SecretMount.MountPoint sm |} ] in
        let envVars :=
          append envVars
            [ {| EnvVar.Name := "USERS_PAYLOAD_PATH";
                 EnvVar.Value :=
                   Sprintf_path (SecretMount.MountPoint sm) (LoadTestSpec.UsersFile spec);
                 EnvVar.ValueFrom := None |} ] in
        st_ret (volumes, volumeMounts, envVars)
    | None => st_ret (volumes, volumeMounts, envVars)
    end ;;
  let '(volumes, volumeMounts, envVars) := mounted in
  let job :=
    {| Job.ObjectMeta :=
         {| ObjectMeta.Name := LoadTest.Name v;
            ObjectMeta.Namespace := LoadTest.Namespace v;
            ObjectMeta.UID := "";
            ObjectMeta.Labels := labels v "loadtest-worker-master";
            ObjectMeta.OwnerReferences := [] |};
       Job.Spec :=
         {| JobSpec.Parallelism := Some parallelism;
            JobSpec.Completions := Some completions;
            JobSpec.CompletionMode := Some completion;
            JobSpec.BackoffLimit := Some backoffLimit;
            JobSpec.Template :=
              {| PodTemplateSpec.ObjectMeta :=
                   {| ObjectMeta.Name := "";
                      ObjectMeta.Namespace := "";
                      ObjectMeta.UID := "";
                      ObjectMeta.Labels := labels v "loadtest-worker";
                      ObjectMeta.OwnerReferences := [] |};
                 PodTemplateSpec.Spec :=
                   {| PodSpec.Containers :=
                        Slice
                          [ {| Container.Name := LoadTest.Name v;
                               Container.Image := img;
                               Container.ImagePullPolicy := PullIfNotPresent;
                               Container.Resources := resources;
                               Container.Args := args;
                               Container.EnvFrom := secrets;
                               Container.Env :=
                                 append envVars (elems (ToK8sEnvVar (rTelemetryConfig r)));
                               Container.VolumeMounts := volumeMounts |} ];
                      PodSpec.RestartPolicy := "Never";
                      PodSpec.Volumes := volumes |} |} |} |} in
  let '(job, _) := SetControllerReference v job (rScheme r) in
  st_ret job.

End Job.

(** ** ensureJob *)

Module NamespacedName.
Record t := { Name : string; Namespace : string }.
End NamespacedName.

(** [ctrl.Result] *)
Module Result.
Record t := { Requeue : bool; RequeueAfter : Z }.
Definition zero : t := {| Requeue := false; RequeueAfter := 0%Z |}.
End Result.

(** What reaches the cluster client, in order. *)
Inductive ApiCall :=
| CallGet (key : NamespacedName.t)
| CallCreate (obj : Job.t).

(** [r.Recorder.Eventf(object, eventtype, reason, message)] *)
Record RecorderEvent := {
  ev_object : string * string;
  ev_type : string;
  ev_reason : string;
  ev_message : string }.

(** The state a reconciliation runs in. *)
Record World (C : Type) := {
  proc : Proc;
  cluster : C;
  calls : list ApiCall;
  events : list RecorderEvent }.
Arguments proc {C} _.
Arguments cluster {C} _.
Arguments calls {C} _.
Arguments events {C} _.

Section Reconcile.

Context {C : Type}.

Definition in_proc {A} (m : State Proc A) : State (World C) A :=
  λ w, let (a, p) := m (proc w) in
       (a, {| proc := p; cluster := cluster w; calls := calls w; events := events w |}).

Definition r_Get (r : LoadTestReconciler C) (key : NamespacedName.t)
    : State (World C) (Job.t + error) :=
  λ w, let (res, c) :=
         client_Get (rClient r) (NamespacedName.Namespace key, NamespacedName.Name key)
           (cluster w) in
       (res, {| proc := proc w; cluster := c;
                calls := calls w ++ [CallGet key]; events := events w |}).

Definition r_Create (r : LoadTestReconciler C) (obj : Job.t) : State (World C) (option error) :=
  λ w, let (err, c) := client_Create (rClient r) obj (cluster w) in
       (err, {| proc := proc w; cluster := c;
                calls := calls w ++ [CallCreate obj]; events := events w |}).

Definition Recorder_Eventf (object : LoadTest.t) (eventtype reason msg : string)
    : State (World C) unit :=
  st_modify (λ w,
    {| proc := proc w; cluster := cluster w; calls := calls w;
       events := events w ++
         [ {| ev_object := (LoadTest.Namespace object, LoadTest.Name object);
              ev_type := eventtype; ev_reason := reason; ev_message := msg |} ] |}).

Definition job_Name (j : Job.t) : string := ObjectMeta.Name (Job.ObjectMeta j).
Definition job_Namespace (j : Job.t) : string := ObjectMeta.Namespace (Job.ObjectMeta j).

Definition ensureJob (r : LoadTestReconciler C) (instance : LoadTest.t) (job : Job.t)
    : State (World C) (option Result.t * option error) :=
  let found := Job.zero in
  res <- r_Get r {| NamespacedName.Name := job_Name job;
                    NamespacedName.Namespace := LoadTest.Namespace instance |} ;;
  let '(found, err) :=
    match res with
    | inl obj => (obj, None)
    | inr e => (found, Some e)
    end in
  match err with
  | Some e =>
      if IsNotFound e then
        in_proc (logger_Info "Creating a new Job"
                   [("Job.Namespace", job_Namespace job); ("Job.Name", job_Name job)]) ;;;
        err <- r_Create r job ;;
        match err with
        | Some e' =>
            in_proc (logger_Error e' "Failed to create new Job"
                       [("Job.Namespace", job_Namespace job); ("Job.Name", job_Name job)]) ;;;
            st_ret (Some Result.zero, Some e')
        | None =>
            Recorder_Eventf instance "Normal" "Created"
              ("Created Load Test worker master job: " +:+ job_Name job) ;;;
            st_ret (None, None)
        end
      else
        in_proc (logger_Error e "Failed to get Job"
                   [("Job.Namespace", job_Namespace found); ("Job.Name", job_Name found)]) ;;;
        st_ret (Some Result.zero, Some e)
  | None => st_ret (None, None)
  end.

End Reconcile.

(** ** A cluster in memory

    The cluster as the platform keeps it: at most one object for each
    name space and name.  [Get] finds the object or fails with
    not-found; [Create] stores a new object or fails with
    already-exists. *)

Definition mem_Get (key : string * string) (c : gmap (string * string) Job.t)
    : (Job.t + error) * gmap (string * string) Job.t :=
  match c !! key with
  | Some obj => (inl obj, c)
  | None => (inr {| reason := StatusReasonNotFound; message := "not found" |}, c)
  end.

Definition mem_Create (obj : Job.t) (c : gmap (string * string) Job.t)
    : option error * gmap (string * string) Job.t :=
  let key := (ObjectMeta.Namespace (Job.ObjectMeta obj), ObjectMeta.Name (Job.ObjectMeta obj)) in
  match c !! key with
  | Some _ => (Some {| reason := StatusReasonAlreadyExists; message := "already exists" |}, c)
  | None => (None, <[key := obj]> c)
  end.

Definition mem_client : Client (gmap (string * string) Job.t) :=
  {| client_Get := mem_Get; client_Create := mem_Create |}.

(** ** What the properties are stated with *)

(** What the loop does to the content of [dest], as a function. *)
Fixpoint fill (entries : list (string * Quantity)) (m : gmap string Quantity)
    : gmap string Quantity :=
  match entries with
  | [] => m
  | (k, v) :: rest =>
      fill rest (match m !! k with Some _ => m | None => <[k := v]> m end)
  end.

Definition container_of (j : Job.t) : option Container.t :=
  head (elems (PodSpec.Containers (PodTemplateSpec.Spec (JobSpec.Template (Job.Spec j))))).

Definition volumes_of (j : Job.t) : slice Volume.t :=
  PodSpec.Volumes (PodTemplateSpec.Spec (JobSpec.Template (Job.Spec j))).

Definition unit_labels (j : Job.t) : gmap string string :=
  ObjectMeta.Labels (Job.ObjectMeta j).

Definition template_labels (j : Job.t) : gmap string string :=
  ObjectMeta.Labels (PodTemplateSpec.ObjectMeta (JobSpec.Template (Job.Spec j))).

Definition lookup_key (instance : LoadTest.t) (job : Job.t) : NamespacedName.t :=
  {| NamespacedName.Name := job_Name job;
     NamespacedName.Namespace := LoadTest.Namespace instance |}.

Definition job_kvs (job : Job.t) : list (string * string) :=
  [("Job.Namespace", job_Namespace job); ("Job.Name", job_Name job)].

Definition created_event (instance : LoadTest.t) (job : Job.t) : RecorderEvent :=
  {| ev_object := (LoadTest.Namespace instance, LoadTest.Name instance);
     ev_type := "Normal"; ev_reason := "Created";
     ev_message := "Created Load Test worker master job: " +:+ job_Name job |}.

(** The two ways in which a reconciliation succeeds: the job is found,
    or it is not found and its creation succeeds. *)
Definition found_or_created {C} (r : LoadTestReconciler C) (instance : LoadTest.t)
    (job : Job.t) (w : World C) : Prop :=
  match client_Get (rClient r) (LoadTest.Namespace instance, job_Name job) (cluster w) with
  | (inl _, _) => True
  | (inr e, c1) => IsNotFound e = true ∧ (client_Create (rClient r) job c1).1 = None
  end.

(** ** Sample objects *)

(** A client that fails on demand, and is the cluster in memory
    otherwise. *)
Definition faulty_client (get_fault create_fault : option error)
    : Client (gmap (string * string) Job.t) :=
  {| client_Get := λ key c,
       match get_fault with Some e => (inr e, c) | None => mem_Get key c end;
     client_Create := λ obj c,
       match create_fault with Some e => (Some e, c) | None => mem_Create obj c end |}.

Definition sample_image : string := "artilleryio/artillery:latest".

Definition sample_telemetry : TelemetryConfig :=
  {| ToK8sEnvVar :=
       Slice [ {| EnvVar.Name := "ARTILLERY_DISABLE_TELEMETRY";
                  EnvVar.Value := "true"; EnvVar.ValueFrom := None |} ] |}.

Definition sample_reconciler (client : Client (gmap (string * string) Job.t))
    : LoadTestReconciler (gmap (string * string) Job.t) :=
  {| rClient := client;
     rScheme := {| LoadTestKind := Some ("loadtest.artillery.io/v1alpha1", "LoadTest") |};
     rTelemetryConfig := sample_telemetry |}.

Definition sample_loadtest (spec : LoadTestSpec.t) : LoadTest.t :=
  {| LoadTest.ObjectMeta :=
       {| ObjectMeta.Name := "basic-test"; ObjectMeta.Namespace := "default";
          ObjectMeta.UID := "0001"; ObjectMeta.Labels := ∅;
          ObjectMeta.OwnerReferences := [] |};
     LoadTest.Spec := spec |}.

Definition spec_with_count (n : Z) : LoadTestSpec.t :=
  {| LoadTestSpec.Count := n; LoadTestSpec.Image := ""; LoadTestSpec.Args := nil_slice;
     LoadTestSpec.Resources := None; LoadTestSpec.SecretEnvSource := "";
     LoadTestSpec.SecretMount := None; LoadTestSpec.UsersFile := "" |}.

Definition spec_empty_args : LoadTestSpec.t :=
  {| LoadTestSpec.Count := 1; LoadTestSpec.Image := ""; LoadTestSpec.Args := Slice [];
     LoadTestSpec.Resources := None; LoadTestSpec.SecretEnvSource := "";
     LoadTestSpec.SecretMount := None; LoadTestSpec.UsersFile := "" |}.

Definition creds_mount : SecretMount.t :=
  {| SecretMount.Name := "creds"; SecretMount.MountPoint := "/data" |}.

Definition spec_mount_no_file : LoadTestSpec.t :=
  {| LoadTestSpec.Count := 1; LoadTestSpec.Image := ""; LoadTestSpec.Args := nil_slice;
     LoadTestSpec.Resources := None; LoadTestSpec.SecretEnvSource := "";
     LoadTestSpec.SecretMount := Some creds_mount; LoadTestSpec.UsersFile := "" |}.

Definition spec_file_no_mount : LoadTestSpec.t :=
  {| LoadTestSpec.Count := 1; LoadTestSpec.Image := ""; LoadTestSpec.Args := nil_slice;
     LoadTestSpec.Resources := None; LoadTestSpec.SecretEnvSource := "";
     LoadTestSpec.SecretMount := None; LoadTestSpec.UsersFile := "users.csv" |}.

Definition empty_proc : Proc := {| maps := ∅; logged := [] |}.

Definition empty_world : World (gmap (string * string) Job.t) :=
  {| proc := empty_proc; cluster := ∅; calls := []; events := [] |}.

(** An override of the memory limit at 1, the default limits at 2. *)
Definition quota_proc : Proc :=
  {| maps := <[1%positive := <[ResourceMemory := MustParse "8Gi"]> ∅]>
             (<[2%positive := <[ResourceCPU := MustParse "2"]>
                                (<[ResourceMemory := MustParse "4Gi"]> ∅)]> ∅);
     logged := [] |}.

Definition sample_job (spec : LoadTestSpec.t) : Job.t :=
  (job sample_image (sample_reconciler mem_client) (sample_loadtest spec) empty_proc).1.

Definition timeout_error : error :=
  {| reason := StatusReasonTimeout; message := "the server was unable to respond in time" |}.

Definition forbidden_error : error :=
  {| reason := StatusReasonForbidden; message := "jobs.batch is forbidden" |}.

(** ** What the further properties are stated with *)

(** The two map literals of [job]. *)
Definition default_limits : gmap string Quantity :=
  <[ResourceCPU := MustParse "2"]> (<[ResourceMemory := MustParse "4Gi"]> ∅).

Definition default_requests : gmap string Quantity :=
  <[ResourceCPU := MustParse "2"]> (<[ResourceMemory := MustParse "2Gi"]> ∅).

(** The map that [v.Spec.Resources] gives for the limits ([f] the
    field [Limits]) or the requests, [nil] when there is none. *)
Definition override_of (spec : LoadTestSpec.t) (f : ResourceRequirements.t → ResourceList)
    : ResourceList :=
  match LoadTestSpec.Resources spec with
  | Some res => f res
  | None => nil_map
  end.

(** One of the two guarded merges of [job], the defaults being at [l]. *)
Definition merge_override (o : option ResourceRequirements.t)
    (f : ResourceRequirements.t → ResourceList) (l : positive) : State Proc ResourceList :=
  match o with
  | Some res =>
      if negb (is_nil_map (f res)) then
        MergePreservingExistingKeys (f res) (map_at l)
      else st_ret (map_at l)
  | None => st_ret (map_at l)
  end.

(** The number of creations among the calls made to the cluster. *)
Fixpoint creations (cs : list ApiCall) : nat :=
  match cs with
  | [] => 0
  | CallCreate _ :: rest => S (creations rest)
  | CallGet _ :: rest => creations rest
  end.

(** [n] runs of [ensureJob] one after the other, for one LoadTest and
    one job. *)
Fixpoint ensureJob_times {C} (n : nat) (r : LoadTestReconciler C) (instance : LoadTest.t)
    (job : Job.t) (w : World C) : World C :=
  match n with
  | O => w
  | S n' => (ensureJob r instance job (ensureJob_times n' r instance job w)).2
  end.

(** A LoadTest whose limits are the map at 1 of [quota_proc], a
    memory limit of 8Gi, and which has no requests. *)
Definition spec_with_limits : LoadTestSpec.t :=
  {| LoadTestSpec.Count := 1; LoadTestSpec.Image := ""; LoadTestSpec.Args := nil_slice;
     LoadTestSpec.Resources :=
       Some {| ResourceRequirements.Limits := map_at 1;
               ResourceRequirements.Requests := nil_map |};
     LoadTestSpec.SecretEnvSource := ""; LoadTestSpec.SecretMount := None;
     LoadTestSpec.UsersFile := "" |}.

Definition spec_mount_with_file : LoadTestSpec.t :=
  {| LoadTestSpec.Count := 1; LoadTestSpec.Image := ""; LoadTestSpec.Args := nil_slice;
     LoadTestSpec.Resources := None; LoadTestSpec.SecretEnvSource := "api-keys";
     LoadTestSpec.SecretMount := Some creds_mount; LoadTestSpec.UsersFile := "users.csv" |}.

(** The job of the sample LoadTest, moved to another name space. *)
Definition stray_job : Job.t :=
  {| Job.ObjectMeta :=
       {| ObjectMeta.Name := "basic-test"; ObjectMeta.Namespace := "staging";
          ObjectMeta.UID := ""; ObjectMeta.Labels := ∅; ObjectMeta.OwnerReferences := [] |};
     Job.Spec := Job.Spec (sample_job (spec_with_count 3)) |}.

(** ** Proof automation *)

(** Runs the state computations of a goal one after the other. *)
Ltac run_state :=
  unfold st_bind, st_ret;
  repeat match goal with
         | |- context [let (_, _) := ?m in _] => destruct m as [? ?] eqn:?
         end.

(** ** Properties of the merge *)

Section Merge.

Implicit Types (p : Proc) (m : gmap string Quantity) (d : positive)
  (entries : list (string * Quantity)).

Lemma fill_union entries m : fill entries m = m ∪ list_to_map entries.
Proof.
  revert m. induction entries as [|[k v] rest IH]; intros m; simpl.
  - by rewrite (right_id_L ∅ (∪)).
  - rewrite IH. destruct (m !! k) as [q|] eqn:Hk.
    + apply map_eq. intros i. rewrite !lookup_union.
      destruct (decide (i = k)) as [->|Hne].
      * rewrite Hk, lookup_insert_eq. by destruct (list_to_map rest !! k).
      * by rewrite lookup_insert_ne.
    + rewrite <- insert_union_l. by rewrite insert_union_r.
Qed.

Lemma content_map_set p d k v :
  content (map_set d k v p).2 (map_at d) = <[k := v]> (content p (map_at d)).
Proof. simpl. by rewrite lookup_insert_eq. Qed.

Lemma merge_loop_cons d k v rest p :
  merge_loop d ((k, v) :: rest) p
  = merge_loop d rest
      (match content p (map_at d) !! k with
       | Some _ => p
       | None => (map_set d k v p).2
       end).
Proof.
  simpl. unfold st_bind, map_has, st_ret, content.
  destruct (default ∅ (maps p !! d) !! k) as [q|] eqn:Hk.
  - by rewrite bool_decide_eq_true_2 by eauto.
  - by rewrite bool_decide_eq_false_2 by (by intros [? ?]).
Qed.

Lemma merge_loop_spec d entries p :
  let p' := (merge_loop d entries p).2 in
  content p' (map_at d) = fill entries (content p (map_at d))
  ∧ (∀ l, l ≠ d → maps p' !! l = maps p !! l)
  ∧ logged p' = logged p
  ∧ dom (maps p) ⊆ dom (maps p').
Proof.
  revert p. induction entries as [|[k v] rest IH]; intros p.
  - done.
  - rewrite merge_loop_cons. cbn zeta.
    destruct (content p (map_at d) !! k) as [q|] eqn:Hk.
    + cbn [fill]. rewrite Hk. apply IH.
    + destruct (IH (map_set d k v p).2) as (Hc & Ho & Hl & Hd).
      cbn [fill]. rewrite Hk. split_and!.
      * by rewrite Hc, content_map_set.
      * intros l Hne. rewrite Ho by done. simpl. by rewrite lookup_insert_ne.
      * by rewrite Hl.
      * etrans; [|exact Hd]. simpl. rewrite dom_insert_L. apply union_subseteq_r.
Qed.

(** The order in which [range] visits the entries does not matter. *)
Lemma merge_loop_order d p (src : gmap string Quantity) entries :
  entries ≡ₚ map_to_list src →
  content (merge_loop d entries p).2 (map_at d)
  = content (merge_loop d (map_to_list src) p).2 (map_at d).
Proof.
  intros Hperm.
  destruct (merge_loop_spec d entries p) as (-> & _).
  destruct (merge_loop_spec d (map_to_list src) p) as (-> & _).
  rewrite !fill_union. f_equal.
  symmetry. apply list_to_map_proper; [|done].
  apply NoDup_fst_map_to_list.
Qed.

(** The merged map, as a function of the two contents. *)
Lemma merge_content p dest src :
  live p src →
  let r := (MergePreservingExistingKeys dest src p).1 in
  let p' := (MergePreservingExistingKeys dest src p).2 in
  content p' r = content p dest ∪ content p src
  ∧ content p' src = content p src
  ∧ logged p' = logged p.
Proof.
  intros Hlive. destruct dest as [|d].
  - destruct src as [|s]; [simpl; by rewrite (left_id_L ∅ (∪))|].
    cbn [MergePreservingExistingKeys]. unfold st_bind, make_map, range_map, st_ret.
    set (d := fresh (dom (maps p))).
    set (p1 := set_maps (insert d ∅) p).
    assert (d ≠ s) as Hds.
    { intros Heq. subst s. exact (is_fresh (dom (maps p)) Hlive). }
    assert (content p1 (map_at s) = content p (map_at s)) as Hs.
    { simpl. by rewrite lookup_insert_ne. }
    assert (content p1 (map_at d) = ∅) as Hd.
    { simpl. by rewrite lookup_insert_eq. }
    rewrite Hs.
    destruct (merge_loop_spec d (map_to_list (content p (map_at s))) p1)
      as (Hc & Ho & Hl & _).
    destruct (merge_loop d _ p1) as [[] p2]. cbn [fst snd] in *.
    split_and!.
    + by rewrite Hc, Hd, fill_union, list_to_map_to_list.
    + rewrite <- Hs. unfold content. by rewrite Ho.
    + by rewrite Hl.
  - cbn [MergePreservingExistingKeys]. unfold st_bind, range_map, st_ret.
    destruct (merge_loop_spec d (map_to_list (content p src)) p)
      as (Hc & Ho & Hl & _).
    destruct (merge_loop d _ p) as [[] p2]. cbn [fst snd] in *.
    rewrite fill_union, list_to_map_to_list in Hc.
    split_and!; [done| |done].
    destruct src as [|s]; [done|].
    destruct (decide (s = d)) as [->|Hne].
    + by rewrite Hc, (idemp_L (∪)).
    + unfold content. by rewrite Ho.
Qed.

(** The merge hands nothing to the logger. *)
Lemma merge_logged p dest src :
  logged (MergePreservingExistingKeys dest src p).2 = logged p.
Proof.
  destruct dest as [|d]; [destruct src as [|s]; [done|]|];
    cbn [MergePreservingExistingKeys]; unfold st_bind, make_map, range_map, st_ret.
  - set (p1 := set_maps _ p).
    destruct (merge_loop_spec (fresh (dom (maps p)))
                (map_to_list (content p1 (map_at s))) p1) as (_ & _ & Hl & _).
    destruct (merge_loop _ _ p1) as [[] p2]. exact Hl.
  - destruct (merge_loop_spec d (map_to_list (content p src)) p) as (_ & _ & Hl & _).
    destruct (merge_loop d _ p) as [[] p2]. exact Hl.
Qed.

End Merge.

(** C4: the merge keeps every key of [dest] with its value, and adds
    the keys of [src] that [dest] does not have, with their values in
    [src], and nothing else; the merge of [nil] and [nil] is [nil]; the
    merge of [nil] and a map has, key for key, the content of that map;
    and the content of [src] is after the merge what it was before,
    also when [dest] and [src] are one map. *)
Theorem MergePreservingExistingKeys_spec (p : Proc) (dest src : ResourceList) :
  live p src →
  let r := (MergePreservingExistingKeys dest src p).1 in
  let p' := (MergePreservingExistingKeys dest src p).2 in
  (∀ k q, content p dest !! k = Some q → content p' r !! k = Some q)
  ∧ (∀ k, content p dest !! k = None → content p' r !! k = content p src !! k)
  ∧ (dest = nil_map → src = nil_map → r = nil_map)
  ∧ (dest = nil_map → ∀ k, content p' r !! k = content p src !! k)
  ∧ content p' src = content p src.
Proof.
  intros Hlive. cbn zeta.
  destruct (merge_content p dest src Hlive) as (Hr & Hsrc & _).
  split_and!.
  - intros k q Hk. rewrite Hr. by apply lookup_union_Some_l.
  - intros k Hk. rewrite Hr. by apply lookup_union_r.
  - by intros -> ->.
  - intros -> k. rewrite Hr. cbn [content]. by rewrite (left_id_L ∅ (∪)).
  - exact Hsrc.
Qed.

(** ** Properties of the built job *)

Lemma set_owners_Spec owners j : Job.Spec (set_owners owners j) = Job.Spec j.
Proof. done. Qed.

Lemma set_owners_same j :
  set_owners (ObjectMeta.OwnerReferences (Job.ObjectMeta j)) j = j.
Proof. by destruct j as [[] ?]. Qed.

(** [SetControllerReference] writes to the owner references only. *)
Lemma SetControllerReference_owners v j s :
  ∃ owners, (SetControllerReference v j s).1 = set_owners owners j.
Proof.
  unfold SetControllerReference.
  destruct (validateOwner _ _); [eexists; symmetry; apply set_owners_same|].
  destruct (LoadTestKind s) as [[apiVersion kind]|];
    [|eexists; symmetry; apply set_owners_same].
  destruct (GetControllerOf _); [|by eexists].
  destruct (referSameObject _ _); [by eexists|].
  eexists; symmetry; apply set_owners_same.
Qed.

(** Merging the defaults into an override hands nothing to the logger. *)
Lemma resources_logged (o : option ResourceRequirements.t)
    (f : ResourceRequirements.t → ResourceList) (l : positive) (q : Proc) :
  logged ((match o with
           | Some res =>
               if negb (is_nil_map (f res)) then
                 MergePreservingExistingKeys (f res) (map_at l)
               else st_ret (map_at l)
           | None => st_ret (map_at l)
           end) q).2 = logged q.
Proof.
  destruct o as [res|]; [destruct (is_nil_map (f res))|]; simpl; try done.
  apply merge_logged.
Qed.

Section JobProperties.

Variable WorkerImage : string.
Context {C : Type}.
Implicit Types (r : LoadTestReconciler C) (v : LoadTest.t) (p : Proc).

(** The pod template, the name and the labels of the job are fixed
    by the LoadTest alone, up to the two resource maps. *)
Lemma job_Spec r v p :
  ∃ limits requests,
    Job.Spec (job WorkerImage r v p).1
    = let spec := LoadTest.Spec v in
      let n := if (0 <? LoadTestSpec.Count spec)%Z
               then int32 (LoadTestSpec.Count spec) else 1%Z in
      {| JobSpec.Parallelism := Some n;
         JobSpec.Completions := Some n;
         JobSpec.CompletionMode := Some IndexedCompletion;
         JobSpec.BackoffLimit := Some 0%Z;
         JobSpec.Template :=
           {| PodTemplateSpec.ObjectMeta :=
                {| ObjectMeta.Name := ""; ObjectMeta.Namespace := "";
                   ObjectMeta.UID := "";
                   ObjectMeta.Labels := labels v "loadtest-worker";
                   ObjectMeta.OwnerReferences := [] |};
              PodTemplateSpec.Spec :=
                {| PodSpec.Containers :=
                     Slice
                       [ {| Container.Name := LoadTest.Name v;
                            Container.Image :=
                              if bool_decide (LoadTestSpec.Image spec ≠ "")
                              then LoadTestSpec.Image spec else WorkerImage;
                            Container.ImagePullPolicy := PullIfNotPresent;
                            Container.Resources :=
                              {| ResourceRequirements.Limits := limits;
                                 ResourceRequirements.Requests := requests |};
                            Container.Args :=
                              match LoadTestSpec.Args spec with
                              | nil_slice => Slice ["help"]
                              | Slice l => Slice l
                              end;
                            Container.EnvFrom :=
                              if bool_decide (LoadTestSpec.SecretEnvSource spec ≠ "")
                              then Slice [ {| EnvFromSource.SecretRef :=
                                                Some {| SecretEnvSource.Name :=
                                                          LoadTestSpec.SecretEnvSource spec |} |} ]
                              else Slice [];
                            Container.Env :=
                              Slice
                                (WORKER_ID ::
                                 match LoadTestSpec.SecretMount spec with
                                 | Some sm =>
                                     [ {| EnvVar.Name := "USERS_PAYLOAD_PATH";
                                          EnvVar.Value :=
                                            Sprintf_path (SecretMount.MountPoint sm)
                                              (LoadTestSpec.UsersFile spec);
                                          EnvVar.ValueFrom := None |} ]
                                 | None => []
                                 end ++ elems (ToK8sEnvVar (rTelemetryConfig r)));
                            Container.VolumeMounts :=
                              match LoadTestSpec.SecretMount spec with
                              | Some sm =>
                                  Slice [ {| VolumeMount.Name := SecretMount.Name sm;
                                             VolumeMount.MountPath :=
                                               SecretMount.MountPoint sm |} ]
                              | None => Slice []
                              end |} ];
                   PodSpec.RestartPolicy := "Never";
                   PodSpec.Volumes :=
                     match LoadTestSpec.SecretMount spec with
                     | Some sm =>
                         Slice [ {| Volume.Name := SecretMount.Name sm;
                                    Volume.VolumeSource :=
                                      {| VolumeSource.Secret :=
                                           Some {| SecretVolumeSource.SecretName :=
                                                     SecretMount.Name sm |} |} |} ]
                     | None => Slice []
                     end |} |} |}.
Proof.
  unfold job. run_state.
  match goal with
  | H : SetControllerReference ?v ?j ?s = _ |- _ =>
      destruct (SetControllerReference_owners v j s) as [owners Ho];
      rewrite H in Ho; cbn [fst] in Ho; subst
  end.
  cbn [fst set_owners Job.Spec].
  match goal with
  | H : _ = (_, _, _, _) |- _ => rename H into Hmount
  end.
  destruct (LoadTestSpec.SecretMount (LoadTest.Spec v)) as [sm|];
    [destruct (bool_decide (LoadTestSpec.UsersFile (LoadTest.Spec v) = ""))|];
    cbv [st_bind st_ret logger_Error st_modify] in Hmount;
    simplify_eq; do 2 eexists; cbn zeta;
    destruct (LoadTestSpec.Args (LoadTest.Spec v));
    destruct (bool_decide (LoadTestSpec.SecretEnvSource (LoadTest.Spec v) ≠ ""));
    reflexivity.
Qed.

Lemma job_ObjectMeta r v p :
  let meta := Job.ObjectMeta (job WorkerImage r v p).1 in
  ObjectMeta.Name meta = LoadTest.Name v
  ∧ ObjectMeta.Namespace meta = LoadTest.Namespace v
  ∧ ObjectMeta.Labels meta = labels v "loadtest-worker-master".
Proof.
  unfold job. run_state.
  match goal with
  | H : SetControllerReference ?v ?j ?s = _ |- _ =>
      destruct (SetControllerReference_owners v j s) as [owners Ho];
      rewrite H in Ho; cbn [fst] in Ho; subst
  end.
  done.
Qed.

(** What [job] hands to the logger: the one complaint about a secret
    mount without a users file, and nothing else. *)
Lemma job_logged r v p :
  logged (job WorkerImage r v p).2
  = (logged p ++
     match LoadTestSpec.SecretMount (LoadTest.Spec v) with
     | Some _ =>
         if bool_decide (LoadTestSpec.UsersFile (LoadTest.Spec v) = "") then
           [ {| log_error :=
                  Some (errors_New
                          "You need to specify the UsersFile when mounting a SecretsMount");
                log_msg := ""; log_kvs := [] |} ]
         else []
     | None => []
     end)%list.
Proof.
  unfold job. run_state. cbn [snd].
  repeat match goal with
         | H : make_map _ ?q = (_, ?q') |- _ =>
             assert (logged q' = logged q) by (by inversion H); clear H
         | H : ?m ?q = (?x, ?q') |- _ =>
             match type of x with ResourceList => idtac end;
             assert (logged q' = logged q)
               by (transitivity (logged (m q).2);
                   [by rewrite H | apply resources_logged]);
             clear H
         end.
  match goal with
  | H : _ = (_, _, _, _) |- _ => rename H into Hmount
  end.
  destruct (LoadTestSpec.SecretMount (LoadTest.Spec v)) as [sm|];
    [destruct (bool_decide (LoadTestSpec.UsersFile (LoadTest.Spec v) = ""))|];
    cbv [st_bind st_ret logger_Error st_modify] in Hmount;
    simplify_eq; cbn [logged add_log]; rewrite ?app_nil_r; congruence.
Qed.

Lemma int32_in_range (x : Z) :
  (int32_min ≤ x ≤ int32_max)%Z → int32 x = x.
Proof.
  unfold int32, int32_min, int32_max. intros Hx.
  rewrite Z.mod_small by lia. lia.
Qed.

(** C3 (as amended): for every LoadTest whose count is at most
    2^31 - 1, the largest value that the int32 fields of the job can
    hold, the built job has parallelism = completions = max(count, 1):
    1 when the count is 0 (or unset, or negative), and the count
    itself when it is positive. *)
Theorem job_parallelism_completions r v p :
  (LoadTestSpec.Count (LoadTest.Spec v) ≤ int32_max)%Z →
  let spec := Job.Spec (job WorkerImage r v p).1 in
  JobSpec.Parallelism spec = Some (LoadTestSpec.Count (LoadTest.Spec v) `max` 1)%Z
  ∧ JobSpec.Completions spec = Some (LoadTestSpec.Count (LoadTest.Spec v) `max` 1)%Z.
Proof.
  intros Hmax. destruct (job_Spec r v p) as (limits & requests & ->).
  cbn. destruct (Z.ltb_spec 0 (LoadTestSpec.Count (LoadTest.Spec v))) as [Hpos|Hneg].
  - rewrite int32_in_range by (unfold int32_min; lia).
    by rewrite Z.max_l by lia.
  - by rewrite Z.max_r by lia.
Qed.

(** C5 (as amended): the image of the built container is the image
    of the LoadTest if that is not empty and [WorkerImage] otherwise;
    its args are the args of the LoadTest if they are not [nil], also
    when they are an empty slice, and the one-element default
    ["help"] when they are [nil]. *)
Theorem job_image_args r v p :
  ∃ c, container_of (job WorkerImage r v p).1 = Some c
       ∧ Container.Image c
         = (if bool_decide (LoadTestSpec.Image (LoadTest.Spec v) ≠ "")
            then LoadTestSpec.Image (LoadTest.Spec v) else WorkerImage)
       ∧ Container.Args c
         = match LoadTestSpec.Args (LoadTest.Spec v) with
           | nil_slice => Slice ["help"]
           | Slice l => Slice l
           end.
Proof.
  unfold container_of.
  destruct (job_Spec r v p) as (limits & requests & ->).
  eexists. split; [reflexivity|]. done.
Qed.

(** C6: whatever the LoadTest holds, the built job has
    backoffLimit = 0. *)
Theorem job_backoffLimit r v p :
  JobSpec.BackoffLimit (Job.Spec (job WorkerImage r v p).1) = Some 0%Z.
Proof. by destruct (job_Spec r v p) as (limits & requests & ->). Qed.

(** C7: when a secret mount is asked for and usersFile is empty, the
    job is built all the same: it has its name and name space, its
    one container, the volume and the mount of the secret, and the
    path variable USERS_PAYLOAD_PATH whose value is the mount point,
    a slash and the empty file name.  The omission is only handed to
    the logger. *)
Theorem job_secret_mount_without_users_file r v p sm :
  LoadTestSpec.SecretMount (LoadTest.Spec v) = Some sm →
  LoadTestSpec.UsersFile (LoadTest.Spec v) = "" →
  let j := (job WorkerImage r v p).1 in
  job_Name j = LoadTest.Name v
  ∧ job_Namespace j = LoadTest.Namespace v
  ∧ volumes_of j
    = Slice [ {| Volume.Name := SecretMount.Name sm;
                 Volume.VolumeSource :=
                   {| VolumeSource.Secret :=
                        Some {| SecretVolumeSource.SecretName := SecretMount.Name sm |} |} |} ]
  ∧ (∃ c, PodSpec.Containers (PodTemplateSpec.Spec (JobSpec.Template (Job.Spec j)))
          = Slice [c]
          ∧ Container.VolumeMounts c
            = Slice [ {| VolumeMount.Name := SecretMount.Name sm;
                         VolumeMount.MountPath := SecretMount.MountPoint sm |} ]
          ∧ Container.Env c
            = Slice (WORKER_ID
                     :: {| EnvVar.Name := "USERS_PAYLOAD_PATH";
                           EnvVar.Value := SecretMount.MountPoint sm +:+ "/" +:+ "";
                           EnvVar.ValueFrom := None |}
                     :: elems (ToK8sEnvVar (rTelemetryConfig r))))
  ∧ logged (job WorkerImage r v p).2
    = (logged p ++
       [ {| log_error :=
              Some (errors_New
                      "You need to specify the UsersFile when mounting a SecretsMount");
            log_msg := ""; log_kvs := [] |} ])%list.
Proof.
  intros Hsm Hfile. cbn zeta.
  destruct (job_ObjectMeta r v p) as (Hname & Hns & _).
  pose proof (job_logged r v p) as Hlog.
  destruct (job_Spec r v p) as (limits & requests & HS).
  cbn zeta in HS. rewrite Hsm, Hfile in HS, Hlog.
  rewrite (bool_decide_eq_true_2 _ eq_refl) in Hlog.
  unfold volumes_of, job_Name, job_Namespace. rewrite HS.
  split_and!; [done|done|done| |done].
  eexists. split; [reflexivity|]. done.
Qed.

(** The three keys of a label set. *)
Lemma labels_spec v component :
  dom (labels v component)
  = {[ "artillery.io/test-name"; "artillery.io/component"; "artillery.io/part-of" ]}
  ∧ size (labels v component) = 3
  ∧ labels v component !! "artillery.io/test-name" = Some (LoadTest.Name v)
  ∧ labels v component !! "artillery.io/component" = Some component
  ∧ labels v component !! "artillery.io/part-of" = Some "loadtest".
Proof.
  unfold labels. split_and!.
  - rewrite !dom_insert_L, dom_empty_L. set_solver.
  - rewrite !map_size_insert_None, map_size_empty; [done|..];
      by simplify_map_eq.
  - by simplify_map_eq.
  - by simplify_map_eq.
  - by simplify_map_eq.
Qed.

(** C8: both label sets of the built job hold the three fixed keys
    and no other; test-name is the name of the LoadTest and part-of
    the constant "loadtest"; the component of the job itself is the
    worker-master tag, that of the pod template the worker tag. *)
Theorem job_labels r v p :
  let j := (job WorkerImage r v p).1 in
  let keys : gset string :=
    {[ "artillery.io/test-name"; "artillery.io/component"; "artillery.io/part-of" ]} in
  (dom (unit_labels j) = keys ∧ size (unit_labels j) = 3
   ∧ unit_labels j !! "artillery.io/test-name" = Some (LoadTest.Name v)
   ∧ unit_labels j !! "artillery.io/part-of" = Some "loadtest"
   ∧ unit_labels j !! "artillery.io/component" = Some "loadtest-worker-master")
  ∧ (dom (template_labels j) = keys ∧ size (template_labels j) = 3
     ∧ template_labels j !! "artillery.io/test-name" = Some (LoadTest.Name v)
     ∧ template_labels j !! "artillery.io/part-of" = Some "loadtest"
     ∧ template_labels j !! "artillery.io/component" = Some "loadtest-worker").
Proof.
  cbn zeta. unfold unit_labels, template_labels.
  destruct (job_ObjectMeta r v p) as (_ & _ & ->).
  destruct (job_Spec r v p) as (limits & requests & ->). cbn.
  destruct (labels_spec v "loadtest-worker-master") as (? & ? & ? & ? & ?).
  destruct (labels_spec v "loadtest-worker") as (? & ? & ? & ? & ?).
  split_and!; assumption.
Qed.

(** C10: without a secret mount the built job has no volume, no
    volume mount, and its environment is WORKER_ID followed by the
    telemetry entries: [job] adds no USERS_PAYLOAD_PATH, whatever
    usersFile holds, so that none is there unless the telemetry
    configuration brings one.  With an empty secretEnvSource the
    env-from-secret list of the container is empty. *)
Theorem job_without_secrets r v p :
  let j := (job WorkerImage r v p).1 in
  (LoadTestSpec.SecretMount (LoadTest.Spec v) = None →
   volumes_of j = Slice []
   ∧ ∃ c, container_of j = Some c
          ∧ Container.VolumeMounts c = Slice []
          ∧ Container.Env c = Slice (WORKER_ID :: elems (ToK8sEnvVar (rTelemetryConfig r)))
          ∧ ((∀ e, e ∈ elems (ToK8sEnvVar (rTelemetryConfig r)) →
                   EnvVar.Name e ≠ "USERS_PAYLOAD_PATH") →
             ∀ e, e ∈ elems (Container.Env c) → EnvVar.Name e ≠ "USERS_PAYLOAD_PATH"))
  ∧ (LoadTestSpec.SecretEnvSource (LoadTest.Spec v) = "" →
     ∃ c, container_of j = Some c ∧ Container.EnvFrom c = Slice []).
Proof.
  cbn zeta. unfold volumes_of, container_of.
  destruct (job_Spec r v p) as (limits & requests & ->). cbn. split.
  - intros ->. split; [done|]. eexists. split; [reflexivity|]. cbn.
    split_and!; [done|done|].
    intros Htel e [->|He]%elem_of_cons; [done|by apply Htel].
  - intros ->. eexists. split; [reflexivity|]. done.
Qed.

End JobProperties.

(** ** Properties of ensureJob *)

Section ReconcileProperties.

Context {C : Type}.
Implicit Types (r : LoadTestReconciler C) (instance : LoadTest.t) (job : Job.t)
  (w : World C).

(** One run of [ensureJob], case by case on what the cluster says. *)
Lemma ensureJob_cases r instance job w :
  ensureJob r instance job w
  = match client_Get (rClient r) (LoadTest.Namespace instance, job_Name job) (cluster w) with
    | (inl found, c1) =>
        ((None, None),
         {| proc := proc w; cluster := c1;
            calls := calls w ++ [CallGet (lookup_key instance job)];
            events := events w |})
    | (inr e, c1) =>
        if IsNotFound e then
          match client_Create (rClient r) job c1 with
          | (None, c2) =>
              ((None, None),
               {| proc := add_log {| log_error := None; log_msg := "Creating a new Job";
                                     log_kvs := job_kvs job |} (proc w);
                  cluster := c2;
                  calls := calls w ++ [CallGet (lookup_key instance job); CallCreate job];
                  events := events w ++ [created_event instance job] |})
          | (Some e', c2) =>
              ((Some Result.zero, Some e'),
               {| proc := add_log {| log_error := Some e';
                                     log_msg := "Failed to create new Job";
                                     log_kvs := job_kvs job |}
                            (add_log {| log_error := None; log_msg := "Creating a new Job";
                                        log_kvs := job_kvs job |} (proc w));
                  cluster := c2;
                  calls := calls w ++ [CallGet (lookup_key instance job); CallCreate job];
                  events := events w |})
          end
        else
          ((Some Result.zero, Some e),
           {| proc := add_log {| log_error := Some e; log_msg := "Failed to get Job";
                                 log_kvs := job_kvs Job.zero |} (proc w);
              cluster := c1;
              calls := calls w ++ [CallGet (lookup_key instance job)];
              events := events w |})
    end.
Proof.
  unfold ensureJob, st_bind, r_Get, lookup_key. cbn [NamespacedName.Namespace NamespacedName.Name].
  destruct (client_Get _ _ _) as [[found|e] c1]; [reflexivity|].
  destruct (IsNotFound e); [|reflexivity].
  unfold in_proc, r_Create, logger_Info, st_modify, st_ret. cbn [proc cluster calls events].
  destruct (client_Create _ _ _) as [[e'|] c2];
    unfold Recorder_Eventf, logger_Error, st_modify; cbn [proc cluster calls events];
    rewrite <- app_assoc; reflexivity.
Qed.

(** C1: when the lookup fails with not-found, [ensureJob] submits
    the job it was given, once; if the submission succeeds it returns
    no result and no error, and if it fails it returns the error of
    the submission as it is.  When the lookup fails with another
    error it returns that error as it is, and makes no further call
    to the cluster: no submission, no second lookup. *)
Theorem ensureJob_not_found_or_error r instance job w e c1 :
  client_Get (rClient r) (LoadTest.Namespace instance, job_Name job) (cluster w)
  = (inr e, c1) →
  let out := ensureJob r instance job w in
  (IsNotFound e = true →
   calls out.2 = calls w ++ [CallGet (lookup_key instance job); CallCreate job]
   ∧ (∀ c2, client_Create (rClient r) job c1 = (None, c2) →
            out.1 = (None, None) ∧ cluster out.2 = c2
            ∧ events out.2 = events w ++ [created_event instance job])
   ∧ (∀ e' c2, client_Create (rClient r) job c1 = (Some e', c2) →
               out.1 = (Some Result.zero, Some e') ∧ cluster out.2 = c2
               ∧ events out.2 = events w))
  ∧ (IsNotFound e = false →
     out.1 = (Some Result.zero, Some e)
     ∧ calls out.2 = calls w ++ [CallGet (lookup_key instance job)]
     ∧ cluster out.2 = c1 ∧ events out.2 = events w).
Proof.
  intros Hget. cbn zeta. rewrite ensureJob_cases, Hget. split.
  - intros ->. split_and!.
    + by destruct (client_Create _ _ _) as [[e'|] c2].
    + by intros c2 ->.
    + by intros e' c2 ->.
  - by intros ->.
Qed.

(** C9: [ensureJob] returns no result exactly when it returns no
    error, the result it returns with an error is the empty one, and
    it returns neither on the two paths that succeed, and on them
    only. *)
Theorem ensureJob_result_iff_error r instance job w :
  let out := (ensureJob r instance job w).1 in
  (out.1 = None ↔ out.2 = None)
  ∧ (∀ res, out.1 = Some res → res = Result.zero)
  ∧ (out = (None, None) ↔ found_or_created r instance job w).
Proof.
  cbn zeta. rewrite ensureJob_cases. unfold found_or_created.
  destruct (client_Get _ _ _) as [[found|e] c1]; [done|].
  destruct (IsNotFound e); [destruct (client_Create _ _ _) as [[e'|] c2]|];
    cbn [fst snd]; (split; [|split]); try done.
  - by intros res [= <-].
  - split; [done|]. by intros [_ [=]].
  - by intros res [= <-].
  - split; [done|]. by intros [[=] _].
Qed.

End ReconcileProperties.

(** C2: [ensureJob] is idempotent.  Whenever the lookup finds a job,
    [ensureJob] returns no result and no error, and all it did is the
    lookup: no submission, no log entry, no event.  In particular, on
    a cluster that keeps what is created in it, a second run for the
    same LoadTest and the job built from it finds the job that the
    first run found or created, and creates nothing. *)
Theorem ensureJob_idempotent :
  (∀ C (r : LoadTestReconciler C) instance job (w : World C) found c1,
     client_Get (rClient r) (LoadTest.Namespace instance, job_Name job) (cluster w)
     = (inl found, c1) →
     ensureJob r instance job w
     = ((None, None),
        {| proc := proc w; cluster := c1;
           calls := calls w ++ [CallGet (lookup_key instance job)];
           events := events w |}))
  ∧ (∀ WorkerImage (r : LoadTestReconciler (gmap (string * string) Job.t)) v p w,
       rClient r = mem_client →
       let j := (job WorkerImage r v p).1 in
       let w1 := (ensureJob r v j w).2 in
       let out := ensureJob r v j w1 in
       out.1 = (None, None)
       ∧ calls out.2 = calls w1 ++ [CallGet (lookup_key v j)]
       ∧ cluster out.2 = cluster w1
       ∧ events out.2 = events w1
       ∧ proc out.2 = proc w1).
Proof.
  split.
  - intros C r instance job w found c1 Hget. by rewrite ensureJob_cases, Hget.
  - intros WorkerImage r v p w Hclient. cbn zeta.
    destruct (job_ObjectMeta WorkerImage r v p) as (Hname & Hns & _).
    set (j := (job WorkerImage r v p).1) in *.
    assert (∀ c obj, c !! (LoadTest.Namespace v, LoadTest.Name v) = Some obj →
              ∀ w', cluster w' = c →
                ensureJob r v j w'
                = ((None, None),
                   {| proc := proc w'; cluster := cluster w';
                      calls := calls w' ++ [CallGet (lookup_key v j)];
                      events := events w' |})) as Hfound.
    { intros c obj Hobj w' Hw'. rewrite ensureJob_cases, Hclient.
      unfold job_Name. rewrite Hname. cbn [client_Get mem_client].
      unfold mem_Get. by rewrite Hw', Hobj. }
    set (w1 := (ensureJob r v j w).2).
    assert (is_Some (cluster w1 !! (LoadTest.Namespace v, LoadTest.Name v)))
      as [obj Hobj1].
    { unfold w1. rewrite ensureJob_cases, Hclient.
      unfold job_Name. rewrite Hname. cbn [client_Get client_Create mem_client].
      unfold mem_Get.
      destruct (cluster w !! (LoadTest.Namespace v, LoadTest.Name v)) as [obj|] eqn:Hobj.
      - cbn [snd cluster]. rewrite Hobj. eauto.
      - unfold IsNotFound. cbn [reason]. rewrite bool_decide_eq_true_2 by done.
        unfold mem_Create. rewrite Hname, Hns, Hobj. cbn [snd cluster].
        rewrite lookup_insert_eq. eauto. }
    by rewrite (Hfound _ _ Hobj1 w1 eq_refl).
Qed.

(** ** The properties at sample objects *)

(** Three workers, no image, no args: the defaults of the image and
    of the args. *)
Example job_three_workers :
  let j := sample_job (spec_with_count 3) in
  JobSpec.Parallelism (Job.Spec j) = Some 3%Z
  ∧ JobSpec.Completions (Job.Spec j) = Some 3%Z
  ∧ (Container.Image <$> container_of j) = Some sample_image
  ∧ (Container.Args <$> container_of j) = Some (Slice ["help"]).
Proof. vm_compute. by split_and!. Qed.

(** A memory limit of 8Gi given, the cpu limit taken from the
    defaults; the map of the LoadTest itself is the one written to. *)
Example job_memory_override :
  let limits := map_at 1 in
  let p := {| maps := <[1%positive := <[ResourceMemory := MustParse "8Gi"]> ∅]> ∅;
              logged := [] |} in
  let spec :=
    {| LoadTestSpec.Count := 1; LoadTestSpec.Image := ""; LoadTestSpec.Args := nil_slice;
       LoadTestSpec.Resources :=
         Some {| ResourceRequirements.Limits := limits;
                 ResourceRequirements.Requests := nil_map |};
       LoadTestSpec.SecretEnvSource := ""; LoadTestSpec.SecretMount := None;
       LoadTestSpec.UsersFile := "" |} in
  let out := job sample_image (sample_reconciler mem_client) (sample_loadtest spec) p in
  (ResourceRequirements.Limits ∘ Container.Resources <$> container_of out.1) = Some limits
  ∧ content out.2 limits !! ResourceMemory = Some (MustParse "8Gi")
  ∧ content out.2 limits !! ResourceCPU = Some (MustParse "2")
  ∧ content p limits !! ResourceCPU = None.
Proof. vm_compute. by split_and!. Qed.

(** The wrap-around of the count 2^31, which a Go [int] holds. *)
Lemma job_parallelism_overflow :
  let v := sample_loadtest (spec_with_count 2147483648) in
  let spec := Job.Spec (job sample_image (sample_reconciler mem_client) v empty_proc).1 in
  int_range (LoadTestSpec.Count (LoadTest.Spec v))
  ∧ JobSpec.Parallelism spec = Some (-2147483648)%Z
  ∧ JobSpec.Parallelism spec
    ≠ Some (LoadTestSpec.Count (LoadTest.Spec v) `max` 1)%Z.
Proof.
  cbn zeta. split_and!.
  - unfold int_range. cbn. lia.
  - vm_compute. reflexivity.
  - vm_compute. discriminate.
Qed.

(** An empty slice of args that is not [nil] is kept: the container
    has no args, not the default. *)
Lemma job_empty_args_kept :
  let v := sample_loadtest spec_empty_args in
  let j := (job sample_image (sample_reconciler mem_client) v empty_proc).1 in
  elems (LoadTestSpec.Args (LoadTest.Spec v)) = []
  ∧ (Container.Args <$> container_of j) = Some (Slice [])
  ∧ (elems ∘ Container.Args <$> container_of j) ≠ Some ["help"].
Proof.
  cbn zeta. split_and!.
  - reflexivity.
  - vm_compute. reflexivity.
  - vm_compute. discriminate.
Qed.

Lemma job_parallelism_completions_witness :
  let v := sample_loadtest (spec_with_count 3) in
  let spec := Job.Spec (job sample_image (sample_reconciler mem_client) v empty_proc).1 in
  (LoadTestSpec.Count (LoadTest.Spec v) ≤ int32_max)%Z
  ∧ JobSpec.Parallelism spec = Some 3%Z
  ∧ JobSpec.Completions spec = Some 3%Z.
Proof.
  cbn zeta.
  assert (LoadTestSpec.Count (LoadTest.Spec (sample_loadtest (spec_with_count 3)))
          ≤ int32_max)%Z as Hle by (unfold int32_max; cbn; lia).
  split; [exact Hle|].
  exact (job_parallelism_completions sample_image (sample_reconciler mem_client)
           (sample_loadtest (spec_with_count 3)) empty_proc Hle).
Defined.

Lemma job_secret_mount_without_users_file_witness :
  let v := sample_loadtest spec_mount_no_file in
  let j := (job sample_image (sample_reconciler mem_client) v empty_proc).1 in
  LoadTestSpec.SecretMount (LoadTest.Spec v) = Some creds_mount
  ∧ LoadTestSpec.UsersFile (LoadTest.Spec v) = ""
  ∧ ∃ c, container_of j = Some c
         ∧ (EnvVar.Value <$> elems (Container.Env c) !! 1%nat) = Some "/data/".
Proof.
  cbn zeta. split; [reflexivity|]. split; [reflexivity|].
  destruct (job_secret_mount_without_users_file sample_image
              (sample_reconciler mem_client) (sample_loadtest spec_mount_no_file)
              empty_proc creds_mount eq_refl eq_refl)
    as (_ & _ & _ & (c & Hc & _ & Henv) & _).
  exists c. unfold container_of. rewrite Hc, Henv. split; reflexivity.
Defined.

Lemma job_without_secrets_witness :
  let v := sample_loadtest spec_file_no_mount in
  let j := (job sample_image (sample_reconciler mem_client) v empty_proc).1 in
  LoadTestSpec.SecretMount (LoadTest.Spec v) = None
  ∧ LoadTestSpec.SecretEnvSource (LoadTest.Spec v) = ""
  ∧ LoadTestSpec.UsersFile (LoadTest.Spec v) = "users.csv"
  ∧ volumes_of j = Slice []
  ∧ (∃ c, container_of j = Some c
          ∧ Container.VolumeMounts c = Slice []
          ∧ ∀ e, e ∈ elems (Container.Env c) → EnvVar.Name e ≠ "USERS_PAYLOAD_PATH")
  ∧ (∃ c, container_of j = Some c ∧ Container.EnvFrom c = Slice []).
Proof.
  cbn zeta. do 3 (split; [reflexivity|]).
  destruct (job_without_secrets sample_image (sample_reconciler mem_client)
              (sample_loadtest spec_file_no_mount) empty_proc) as [Hmount Hsecret].
  destruct (Hmount eq_refl) as (Hvol & c & Hc & Hvm & _ & Henv).
  split; [exact Hvol|]. split; [|exact (Hsecret eq_refl)].
  exists c. split; [exact Hc|]. split; [exact Hvm|].
  apply Henv. intros e He.
  apply list_elem_of_singleton in He. rewrite He. discriminate.
Defined.

Lemma ensureJob_not_found_or_error_witness :
  let v := sample_loadtest (spec_with_count 3) in
  let j := sample_job (spec_with_count 3) in
  let not_found := {| reason := StatusReasonNotFound; message := "not found" |} in
  (* not found, and the creation succeeds *)
  (client_Get mem_client (LoadTest.Namespace v, job_Name j) ∅ = (inr not_found, ∅)
   ∧ IsNotFound not_found = true
   ∧ (ensureJob (sample_reconciler mem_client) v j empty_world).1 = (None, None))
  (* not found, and the creation fails *)
  ∧ (client_Get (faulty_client None (Some forbidden_error))
       (LoadTest.Namespace v, job_Name j) ∅ = (inr not_found, ∅)
     ∧ (ensureJob (sample_reconciler (faulty_client None (Some forbidden_error)))
          v j empty_world).1 = (Some Result.zero, Some forbidden_error))
  (* the lookup fails with another error *)
  ∧ (client_Get (faulty_client (Some timeout_error) None)
       (LoadTest.Namespace v, job_Name j) ∅ = (inr timeout_error, ∅)
     ∧ IsNotFound timeout_error = false
     ∧ (ensureJob (sample_reconciler (faulty_client (Some timeout_error) None))
          v j empty_world).1 = (Some Result.zero, Some timeout_error)).
Proof.
  cbn zeta.
  set (v := sample_loadtest (spec_with_count 3)).
  set (j := sample_job (spec_with_count 3)).
  set (not_found := {| reason := StatusReasonNotFound; message := "not found" |}).
  split; [split; [reflexivity|split; [reflexivity|]]
         |split; [split; [reflexivity|]
                 |split; [reflexivity|split; [reflexivity|]]]].
  - destruct (ensureJob_not_found_or_error (sample_reconciler mem_client) v j
                empty_world not_found ∅ eq_refl) as [Hnf _].
    destruct (Hnf eq_refl) as (_ & Hok & _).
    exact (proj1 (Hok (<[("default", "basic-test") := j]> ∅) eq_refl)).
  - destruct (ensureJob_not_found_or_error
                (sample_reconciler (faulty_client None (Some forbidden_error))) v j
                empty_world not_found ∅ eq_refl) as [Hnf _].
    destruct (Hnf eq_refl) as (_ & _ & Hfail).
    exact (proj1 (Hfail forbidden_error ∅ eq_refl)).
  - destruct (ensureJob_not_found_or_error
                (sample_reconciler (faulty_client (Some timeout_error) None)) v j
                empty_world timeout_error ∅ eq_refl) as [_ Herr].
    exact (proj1 (Herr eq_refl)).
Defined.

Lemma ensureJob_idempotent_witness :
  let v := sample_loadtest (spec_with_count 3) in
  let j := sample_job (spec_with_count 3) in
  let r := sample_reconciler mem_client in
  let w := {| proc := empty_proc; cluster := <[("default", "basic-test") := j]> ∅;
              calls := []; events := [] |} in
  client_Get (rClient r) (LoadTest.Namespace v, job_Name j) (cluster w) = (inl j, cluster w)
  ∧ rClient r = mem_client
  ∧ (ensureJob r v j w).1 = (None, None)
  ∧ calls (ensureJob r v j w).2 = [CallGet (lookup_key v j)]
  ∧ (ensureJob r v j (ensureJob r v j empty_world).2).1 = (None, None).
Proof.
  cbn zeta.
  set (v := sample_loadtest (spec_with_count 3)).
  set (j := sample_job (spec_with_count 3)).
  set (r := sample_reconciler mem_client).
  set (w := {| proc := empty_proc; cluster := <[("default", "basic-test") := j]> ∅;
               calls := []; events := [] |}).
  destruct ensureJob_idempotent as [Hfound Htwice].
  assert (client_Get (rClient r) (LoadTest.Namespace v, job_Name j) (cluster w)
          = (inl j, cluster w)) as Hget by reflexivity.
  split; [exact Hget|]. split; [reflexivity|].
  rewrite (Hfound _ r v j w j (cluster w) Hget).
  split; [reflexivity|]. split; [reflexivity|].
  exact (proj1 (Htwice sample_image r v empty_proc empty_world eq_refl)).
Defined.

Lemma MergePreservingExistingKeys_spec_witness :
  let r := (MergePreservingExistingKeys (map_at 1) (map_at 2) quota_proc).1 in
  let p' := (MergePreservingExistingKeys (map_at 1) (map_at 2) quota_proc).2 in
  live quota_proc (map_at 2)
  ∧ content p' r !! ResourceMemory = Some (MustParse "8Gi")
  ∧ content p' r !! ResourceCPU = Some (MustParse "2")
  ∧ content p' (map_at 2) = content quota_proc (map_at 2).
Proof.
  cbn zeta.
  assert (live quota_proc (map_at 2)) as Hlive.
  { apply elem_of_dom. eexists. vm_compute. reflexivity. }
  split; [exact Hlive|].
  destruct (MergePreservingExistingKeys_spec quota_proc (map_at 1) (map_at 2) Hlive)
    as (Hkeep & Hadd & _ & _ & Hsrc).
  split; [|split; [|exact Hsrc]].
  - apply Hkeep. vm_compute. reflexivity.
  - rewrite Hadd by (vm_compute; reflexivity). vm_compute. reflexivity.
Defined.

(** ** More on the merge *)

Lemma merge_loop_present (d : positive) (entries : list (string * Quantity)) (p : Proc) :
  (∀ k v, (k, v) ∈ entries → is_Some (content p (map_at d) !! k)) →
  merge_loop d entries p = (tt, p).
Proof.
  induction entries as [|[k v] rest IH]; intros Hin; [done|].
  rewrite merge_loop_cons.
  destruct (Hin k v) as [q ->]; [by left|].
  apply IH. intros k' v' Hk'. apply (Hin k' v'). by right.
Qed.

(** The store after a merge into a map that is not [nil]: the map
    itself is returned, and no other map has changed. *)
Lemma merge_into (p : Proc) (d : positive) (src : ResourceList) :
  (MergePreservingExistingKeys (map_at d) src p).1 = map_at d
  ∧ (∀ l, l ≠ d →
       maps (MergePreservingExistingKeys (map_at d) src p).2 !! l = maps p !! l)
  ∧ dom (maps p) ⊆ dom (maps (MergePreservingExistingKeys (map_at d) src p).2).
Proof.
  cbn [MergePreservingExistingKeys]. unfold st_bind, range_map, st_ret.
  destruct (merge_loop_spec d (map_to_list (content p src)) p) as (_ & Ho & _ & Hd).
  by destruct (merge_loop d _ p) as [[] p2].
Qed.

(** A merge of [nil] with a map that is not [nil] does not return [nil]. *)
Lemma merge_nil_copy_ref (p : Proc) (s : positive) :
  ∃ d, (MergePreservingExistingKeys nil_map (map_at s) p).1 = map_at d.
Proof.
  cbn [MergePreservingExistingKeys]. unfold st_bind, make_map, range_map, st_ret.
  destruct (merge_loop _ _ _) as [[] p2]. by eexists.
Qed.

(** X1: a merge into a map that is not [nil] works in place: it
    returns [dest] itself, the content of [dest] in the store becomes
    its old content completed by the entries of [src] under the keys it
    lacked, and no other map of the store changes. *)
Theorem merge_in_place (p : Proc) (d : positive) (src : ResourceList) :
  live p src →
  let p' := (MergePreservingExistingKeys (map_at d) src p).2 in
  (MergePreservingExistingKeys (map_at d) src p).1 = map_at d
  ∧ content p' (map_at d) = content p (map_at d) ∪ content p src
  ∧ (∀ l, l ≠ d → maps p' !! l = maps p !! l).
Proof.
  intros Hlive. cbn zeta.
  destruct (merge_content p (map_at d) src Hlive) as (Hc & _ & _).
  destruct (merge_into p d src) as (Hr & Ho & _).
  rewrite Hr in Hc. by split_and!.
Qed.

(** X2: a merge of [nil] with a map that is not [nil], be it empty,
    makes a copy: the result is a new map, neither [nil] nor a map of
    the store before, with the content of [src]; the maps of the store
    before are unchanged, and a later write to the result does not
    reach [src]. *)
Theorem merge_nil_copies (p : Proc) (s : positive) :
  live p (map_at s) →
  let p' := (MergePreservingExistingKeys nil_map (map_at s) p).2 in
  ∃ d, (MergePreservingExistingKeys nil_map (map_at s) p).1 = map_at d
       ∧ (d ∉ dom (maps p)) ∧ d ≠ s
       ∧ content p' (map_at d) = content p (map_at s)
       ∧ (∀ l, l ∈ dom (maps p) → maps p' !! l = maps p !! l)
       ∧ (∀ k v, content (map_set d k v p').2 (map_at s) = content p (map_at s)).
Proof.
  intros Hlive. cbn zeta.
  destruct (merge_content p nil_map (map_at s) Hlive) as (Hc & Hsrc & _).
  revert Hc Hsrc.
  cbn [MergePreservingExistingKeys]. unfold st_bind, make_map, range_map, st_ret.
  set (d := fresh (dom (maps p))).
  set (p1 := set_maps (insert d ∅) p).
  assert (d ∉ dom (maps p)) as Hfresh by apply is_fresh.
  assert (d ≠ s) as Hds by (intros ->; by apply Hfresh).
  destruct (merge_loop_spec d (map_to_list (content p1 (map_at s))) p1)
    as (_ & Ho & _ & _).
  destruct (merge_loop d _ p1) as [[] p2]. cbn [fst snd] in *.
  intros Hc Hsrc. exists d. split_and!; try done.
  - rewrite Hc. cbn [content]. by rewrite (left_id_L ∅ (∪)).
  - intros l Hl. rewrite Ho by (intros ->; by apply Hfresh).
    unfold p1. cbn. rewrite lookup_insert_ne; [done|]. intros <-. by apply Hfresh.
  - intros k v. rewrite <- Hsrc. cbn. by rewrite lookup_insert_ne.
Qed.

(** X3: a merge with a [src] that has no entry, [nil] or empty,
    changes nothing: a [dest] that is not [nil] is returned as it is
    and the store is the same. *)
Theorem merge_nothing (p : Proc) (d : positive) (src : ResourceList) :
  content p src = ∅ →
  MergePreservingExistingKeys (map_at d) src p = (map_at d, p).
Proof.
  intros Hempty. cbn [MergePreservingExistingKeys]. unfold st_bind, range_map, st_ret.
  by rewrite Hempty, map_to_list_empty.
Qed.

(** X4: merging the same [src] a second time into the result of a
    merge changes nothing: the second merge returns the same map and
    leaves the store as the first merge left it. *)
Theorem merge_twice (p : Proc) (dest src : ResourceList) :
  live p src →
  let r := (MergePreservingExistingKeys dest src p).1 in
  let p1 := (MergePreservingExistingKeys dest src p).2 in
  MergePreservingExistingKeys r src p1 = (r, p1).
Proof.
  intros Hlive. cbn zeta.
  destruct (merge_content p dest src Hlive) as (Hc & Hsrc & _).
  destruct (MergePreservingExistingKeys dest src p) as [r p1] eqn:Hrun.
  cbn [fst snd] in *.
  destruct r as [|d].
  - destruct dest as [|d'].
    2: { destruct (merge_into p d' src) as (Hr & _). by rewrite Hrun in Hr. }
    destruct src as [|s]; [by inversion Hrun|].
    destruct (merge_nil_copy_ref p s) as [d Hd]. by rewrite Hrun in Hd.
  - cbn [MergePreservingExistingKeys]. unfold st_bind, range_map, st_ret.
    rewrite merge_loop_present; [done|].
    intros k v Hkv%elem_of_map_to_list. rewrite Hsrc in Hkv.
    rewrite Hc. apply lookup_union_is_Some. right. eauto.
Qed.

(** X5: the order in which [range] visits the entries of [src] does
    not matter: whatever the order, the loop leaves in [dest] its old
    content completed by the entries of [src]. *)
Theorem range_order_irrelevant (p : Proc) (d : positive) (src : ResourceList)
    (entries : list (string * Quantity)) :
  entries ≡ₚ map_to_list (content p src) →
  content (merge_loop d entries p).2 (map_at d) = content p (map_at d) ∪ content p src.
Proof.
  intros Hperm.
  destruct (merge_loop_spec d entries p) as (-> & _).
  rewrite fill_union. f_equal.
  etrans; [|apply list_to_map_to_list].
  apply list_to_map_proper; [|done].
  rewrite Hperm. apply NoDup_fst_map_to_list.
Qed.

(** ** More on the resource maps of the built job *)

(** The two map literals of [job]: two new maps, with their content. *)
Lemma two_fresh_maps (p : Proc) (a b : gmap string Quantity) :
  let m1 := make_map a p in
  let m2 := make_map b m1.2 in
  (m1.1 ∉ dom (maps p)) ∧ (m2.1 ∉ dom (maps p)) ∧ m1.1 ≠ m2.1
  ∧ content m2.2 (map_at m1.1) = a ∧ content m2.2 (map_at m2.1) = b
  ∧ (∀ l, l ∈ dom (maps p) → maps m2.2 !! l = maps p !! l)
  ∧ live m2.2 (map_at m1.1) ∧ live m2.2 (map_at m2.1).
Proof.
  cbn zeta. unfold make_map. cbn [fst snd set_maps maps content live].
  set (l1 := fresh (dom (maps p))).
  set (l2 := fresh (dom (<[l1:=a]> (maps p)))).
  assert (l1 ∉ dom (maps p)) as H1 by apply is_fresh.
  assert (l2 ∉ dom (<[l1:=a]> (maps p))) as H2 by apply is_fresh.
  rewrite dom_insert_L in H2.
  assert (l1 ≠ l2) as Hne by (intros Heq; apply H2; rewrite Heq; set_solver).
  assert (l2 ∉ dom (maps p)) as H2' by set_solver.
  split_and!; try done.
  - by rewrite lookup_insert_ne, lookup_insert_eq.
  - by rewrite lookup_insert_eq.
  - intros l Hl. rewrite !lookup_insert_ne; [done|by intros <-|by intros <-].
  - rewrite !dom_insert_L. set_solver.
  - rewrite !dom_insert_L. set_solver.
Qed.

Lemma override_nil (o : option ResourceRequirements.t)
    (f : ResourceRequirements.t → ResourceList) (l : positive) (q : Proc) :
  match o with Some res => f res | None => nil_map end = nil_map →
  merge_override o f l q = (map_at l, q).
Proof. unfold merge_override. destruct o as [res|]; [|done]. by intros ->. Qed.

Lemma override_frame (o : option ResourceRequirements.t)
    (f : ResourceRequirements.t → ResourceList) (l : positive) (q : Proc) (l' : positive) :
  map_at l' ≠ match o with Some res => f res | None => nil_map end →
  maps (merge_override o f l q).2 !! l' = maps q !! l'.
Proof.
  unfold merge_override. destruct o as [res|]; [|done].
  destruct (f res) as [|d]; [done|]. intros Hne. cbn [is_nil_map negb].
  destruct (merge_into q d (map_at l)) as (_ & Ho & _). apply Ho. congruence.
Qed.

Lemma override_some (o : option ResourceRequirements.t)
    (f : ResourceRequirements.t → ResourceList) (l : positive) (q : Proc) (d : positive) :
  match o with Some res => f res | None => nil_map end = map_at d →
  live q (map_at l) →
  (merge_override o f l q).1 = map_at d
  ∧ content (merge_override o f l q).2 (map_at d)
    = content q (map_at d) ∪ content q (map_at l).
Proof.
  unfold merge_override. destruct o as [res|]; [|done]. intros -> Hlive.
  cbn [is_nil_map negb].
  destruct (merge_content q (map_at d) (map_at l) Hlive) as (Hc & _ & _).
  destruct (merge_into q d (map_at l)) as (Hr & _ & _).
  rewrite Hr in Hc. by split.
Qed.

(** The default requests have no key that the default limits lack. *)
Lemma defaults_absorb (m : gmap string Quantity) :
  (m ∪ default_limits) ∪ default_requests = m ∪ default_limits.
Proof.
  apply map_eq. intros k. rewrite !lookup_union.
  unfold default_limits, default_requests.
  destruct (decide (k = ResourceCPU)) as [->|Hcpu].
  { rewrite !lookup_insert_eq. by destruct (m !! ResourceCPU). }
  rewrite !(lookup_insert_ne _ ResourceCPU) by done.
  destruct (decide (k = ResourceMemory)) as [->|Hmem].
  { rewrite !lookup_insert_eq. by destruct (m !! ResourceMemory). }
  rewrite !lookup_insert_ne, !lookup_empty by done. by destruct (m !! k).
Qed.

(** ** More on the built job *)

Section MoreJobProperties.

Variable WorkerImage : string.
Context {C : Type}.
Implicit Types (r : LoadTestReconciler C) (v : LoadTest.t) (p : Proc).

(** The resource maps of the container and the store after [job], as
    the two map literals followed by the two guarded merges. *)
Lemma job_store r v p :
  let spec := LoadTest.Spec v in
  let m1 := make_map default_limits p in
  let m2 := make_map default_requests m1.2 in
  let m3 := merge_override (LoadTestSpec.Resources spec) ResourceRequirements.Limits
              m1.1 m2.2 in
  let m4 := merge_override (LoadTestSpec.Resources spec) ResourceRequirements.Requests
              m2.1 m3.2 in
  (∃ c, container_of (job WorkerImage r v p).1 = Some c
        ∧ Container.Resources c
          = {| ResourceRequirements.Limits := m3.1;
               ResourceRequirements.Requests := m4.1 |})
  ∧ maps (job WorkerImage r v p).2 = maps m4.2.
Proof.
  cbn zeta. unfold container_of, job, merge_override, default_limits, default_requests.
  unfold st_bind, st_ret.
  repeat match goal with
         | |- context [let (_, _) := ?m in _] =>
             destruct m as [? ?] eqn:?; cbn [fst snd]
         end.
  match goal with
  | H : SetControllerReference ?v ?j ?s = _ |- _ =>
      destruct (SetControllerReference_owners v j s) as [owners Ho];
      rewrite H in Ho; cbn [fst] in Ho; subst
  end.
  cbn [fst snd set_owners Job.Spec].
  match goal with
  | H : _ = (_, _, _, _) |- _ => rename H into Hmount
  end.
  destruct (LoadTestSpec.SecretMount (LoadTest.Spec v)) as [sm|];
    [destruct (bool_decide (LoadTestSpec.UsersFile (LoadTest.Spec v) = ""))|];
    cbv [st_bind st_ret logger_Error st_modify] in Hmount;
    simplify_eq; (split; [eexists; split; reflexivity|reflexivity]).
Qed.

(** X6: the limits of the built container.  Without a limits map in
    the LoadTest they are a new map holding the defaults, cpu 2 and
    memory 4Gi.  With one, they are that very map of the LoadTest,
    which [job] completes in place: its entries stay, and the defaults
    are added under the keys it lacked. *)
Theorem job_limits r v p :
  let oL := override_of (LoadTest.Spec v) ResourceRequirements.Limits in
  let oR := override_of (LoadTest.Spec v) ResourceRequirements.Requests in
  live p oL → live p oR →
  let p' := (job WorkerImage r v p).2 in
  ∃ c, container_of (job WorkerImage r v p).1 = Some c
       ∧ let lim := ResourceRequirements.Limits (Container.Resources c) in
         match oL with
         | nil_map => lim ≠ nil_map ∧ ¬ live p lim ∧ content p' lim = default_limits
         | map_at _ => lim = oL ∧ content p' lim = content p oL ∪ default_limits
         end.
Proof.
  intros oL oR HoL HoR. unfold override_of in oL, oR. cbn zeta.
  destruct (job_store r v p) as ((c & Hc & Hres) & Hmaps).
  destruct (two_fresh_maps p default_limits default_requests)
    as (Hf1 & Hf2 & Hne & Hc1 & Hc2 & Hold & Hl1 & Hl2).
  revert Hres Hmaps. cbn zeta.
  set (m1 := make_map default_limits p) in *.
  set (m2 := make_map default_requests m1.2) in *.
  set (m3 := merge_override _ ResourceRequirements.Limits m1.1 m2.2).
  set (m4 := merge_override _ ResourceRequirements.Requests m2.1 m3.2).
  intros Hres Hmaps. exists c. split; [done|]. rewrite Hres. cbn [ResourceRequirements.Limits].
  assert (∀ l, content (job WorkerImage r v p).2 (map_at l) = content m4.2 (map_at l))
    as Hjob by (intros l; unfold content; by rewrite Hmaps).
  destruct oL as [|d] eqn:HeqL.
  - pose proof (override_nil _ ResourceRequirements.Limits m1.1 m2.2 HeqL) as H3.
    subst m4 m3. rewrite H3 in *. cbn [fst snd] in *. split_and!; [done|done|].
    rewrite Hjob. unfold content.
    rewrite (override_frame _ ResourceRequirements.Requests m2.1 m2.2 m1.1); [done|].
    fold oR. intros Heq. rewrite <- Heq in HoR. by apply Hf1.
  - assert (d ∈ dom (maps p)) as Hd by done.
    destruct (override_some _ ResourceRequirements.Limits m1.1 m2.2 d HeqL Hl1)
      as (Hr3 & Hc3).
    fold m3 in Hr3, Hc3. split; [done|]. rewrite Hr3, Hjob.
    assert (content m2.2 (map_at d) = content p (map_at d)) as Hd2
      by (unfold content; by rewrite Hold).
    rewrite Hd2, Hc1 in Hc3.
    destruct (decide (oR = map_at d)) as [HeqR|HneR].
    + assert (live m3.2 (map_at m2.1)) as Hl2'.
      { cbn [live]. apply elem_of_dom. unfold m3.
        rewrite (override_frame _ ResourceRequirements.Limits m1.1 m2.2 m2.1).
        - by apply elem_of_dom.
        - fold oL. rewrite HeqL. intros [= <-]. by apply Hf2. }
      destruct (override_some _ ResourceRequirements.Requests m2.1 m3.2 d HeqR Hl2')
        as (_ & Hc4).
      fold m4 in Hc4. rewrite Hc4, Hc3.
      assert (content m3.2 (map_at m2.1) = default_requests) as ->.
      { rewrite <- Hc2. unfold content, m3.
        rewrite (override_frame _ ResourceRequirements.Limits m1.1 m2.2 m2.1); [done|].
        fold oL. rewrite HeqL. intros [= <-]. by apply Hf2. }
      apply defaults_absorb.
    + rewrite <- Hc3. unfold content, m4.
      rewrite (override_frame _ ResourceRequirements.Requests m2.1 m3.2 d); [done|].
      fold oR. congruence.
Qed.

(** X7: the requests of the built container.  Without a requests map
    in the LoadTest they are a new map holding the defaults, cpu 2 and
    memory 2Gi.  With one, they are that very map, completed in place
    by the defaults of the requests; when the LoadTest uses one map for
    its limits and its requests, the map has been completed by the
    defaults of the limits before, and those stay. *)
Theorem job_requests r v p :
  let oL := override_of (LoadTest.Spec v) ResourceRequirements.Limits in
  let oR := override_of (LoadTest.Spec v) ResourceRequirements.Requests in
  live p oL → live p oR →
  let p' := (job WorkerImage r v p).2 in
  ∃ c, container_of (job WorkerImage r v p).1 = Some c
       ∧ let req := ResourceRequirements.Requests (Container.Resources c) in
         match oR with
         | nil_map => req ≠ nil_map ∧ ¬ live p req ∧ content p' req = default_requests
         | map_at _ =>
             req = oR
             ∧ content p' req
               = content p oR ∪ (if decide (oR = oL) then default_limits
                                 else default_requests)
         end.
Proof.
  intros oL oR HoL HoR. unfold override_of in oL, oR. cbn zeta.
  destruct (job_store r v p) as ((c & Hc & Hres) & Hmaps).
  destruct (two_fresh_maps p default_limits default_requests)
    as (Hf1 & Hf2 & Hne & Hc1 & Hc2 & Hold & Hl1 & Hl2).
  revert Hres Hmaps. cbn zeta.
  set (m1 := make_map default_limits p) in *.
  set (m2 := make_map default_requests m1.2) in *.
  set (m3 := merge_override _ ResourceRequirements.Limits m1.1 m2.2).
  set (m4 := merge_override _ ResourceRequirements.Requests m2.1 m3.2).
  intros Hres Hmaps. exists c. split; [done|]. rewrite Hres.
  cbn [ResourceRequirements.Requests].
  assert (∀ l, content (job WorkerImage r v p).2 (map_at l) = content m4.2 (map_at l))
    as Hjob by (intros l; unfold content; by rewrite Hmaps).
  assert (map_at m2.1 ≠ oL) as Hl2L.
  { intros Heq. rewrite <- Heq in HoL. by apply Hf2. }
  assert (maps m3.2 !! m2.1 = maps m2.2 !! m2.1) as H32
    by (by apply override_frame).
  assert (content m3.2 (map_at m2.1) = default_requests) as Hc32
    by (rewrite <- Hc2; unfold content; by rewrite H32).
  assert (live m3.2 (map_at m2.1)) as Hl2'.
  { cbn [live]. apply elem_of_dom. rewrite H32. by apply elem_of_dom. }
  destruct oR as [|d] eqn:HeqR.
  - pose proof (override_nil _ ResourceRequirements.Requests m2.1 m3.2 HeqR) as H4.
    subst m4. rewrite H4 in *. cbn [fst snd] in *. split_and!; [done|done|].
    by rewrite Hjob.
  - assert (d ∈ dom (maps p)) as Hd by done.
    destruct (override_some _ ResourceRequirements.Requests m2.1 m3.2 d HeqR Hl2')
      as (Hr4 & Hc4).
    fold m4 in Hr4, Hc4. split; [done|]. rewrite Hr4, Hjob, Hc4, Hc32.
    assert (content m2.2 (map_at d) = content p (map_at d)) as Hd2
      by (unfold content; by rewrite Hold).
    destruct (decide (map_at d = oL)) as [HeqL|HneL].
    + destruct (override_some _ ResourceRequirements.Limits m1.1 m2.2 d
                  (eq_sym HeqL) Hl1) as (_ & Hc3).
      fold m3 in Hc3. rewrite Hc3, Hd2, Hc1. apply defaults_absorb.
    + f_equal. rewrite <- Hd2. unfold content, m3.
      by rewrite (override_frame _ ResourceRequirements.Limits m1.1 m2.2 d).
Qed.

(** X8: [job] writes to no map of the store other than the limits
    map and the requests map of the LoadTest: every other map that was
    there is there unchanged. *)
Theorem job_frame r v p (l : positive) :
  l ∈ dom (maps p) →
  map_at l ≠ override_of (LoadTest.Spec v) ResourceRequirements.Limits →
  map_at l ≠ override_of (LoadTest.Spec v) ResourceRequirements.Requests →
  maps (job WorkerImage r v p).2 !! l = maps p !! l.
Proof.
  unfold override_of. intros Hl HneL HneR.
  destruct (job_store r v p) as (_ & ->).
  destruct (two_fresh_maps p default_limits default_requests)
    as (_ & _ & _ & _ & _ & Hold & _ & _).
  rewrite override_frame by done. rewrite override_frame by done. by apply Hold.
Qed.

(** X9: the built job has the name and the name space of the
    LoadTest, and one container, which has the name of the LoadTest. *)
Theorem job_identity r v p :
  let j := (job WorkerImage r v p).1 in
  job_Name j = LoadTest.Name v
  ∧ job_Namespace j = LoadTest.Namespace v
  ∧ ∃ c, PodSpec.Containers (PodTemplateSpec.Spec (JobSpec.Template (Job.Spec j)))
         = Slice [c]
         ∧ Container.Name c = LoadTest.Name v.
Proof.
  cbn zeta. destruct (job_ObjectMeta WorkerImage r v p) as (Hname & Hns & _).
  destruct (job_Spec WorkerImage r v p) as (limits & requests & HS).
  split; [done|]. split; [done|]. rewrite HS. by eexists.
Qed.

(** X10: whatever the LoadTest holds, the built job completes by
    index, its pod is never restarted, and the image of its container
    is pulled only if it is not present. *)
Theorem job_policies r v p :
  let j := (job WorkerImage r v p).1 in
  JobSpec.CompletionMode (Job.Spec j) = Some IndexedCompletion
  ∧ PodSpec.RestartPolicy (PodTemplateSpec.Spec (JobSpec.Template (Job.Spec j))) = "Never"
  ∧ (Container.ImagePullPolicy <$> container_of j) = Some PullIfNotPresent.
Proof.
  cbn zeta. unfold container_of.
  by destruct (job_Spec WorkerImage r v p) as (limits & requests & ->).
Qed.

(** X11: for every count, also one that int32 cannot hold, the
    parallelism and the completions of the built job are the same
    number, and it is 1 or the count narrowed to 32 bits. *)
Theorem job_parallelism_is_completions r v p :
  let spec := Job.Spec (job WorkerImage r v p).1 in
  ∃ n, JobSpec.Parallelism spec = Some n ∧ JobSpec.Completions spec = Some n
       ∧ (int32_min ≤ n ≤ int32_max)%Z
       ∧ (n = 1%Z ∨ ((0 < LoadTestSpec.Count (LoadTest.Spec v))%Z
                     ∧ n = int32 (LoadTestSpec.Count (LoadTest.Spec v)))).
Proof.
  cbn zeta. destruct (job_Spec WorkerImage r v p) as (limits & requests & ->).
  cbn. eexists. split; [reflexivity|]. split; [reflexivity|].
  destruct (Z.ltb_spec 0 (LoadTestSpec.Count (LoadTest.Spec v))) as [Hpos|Hneg].
  - split; [|by right]. unfold int32, int32_min, int32_max.
    pose proof (Z.mod_pos_bound (LoadTestSpec.Count (LoadTest.Spec v) + 2147483648)
                  4294967296) as Hmod.
    lia.
  - split; [|by left]. unfold int32_min, int32_max. lia.
Qed.

(** X12: the environment of the built container starts with
    WORKER_ID, ends with the telemetry entries in their order, and has
    between them at most one entry, named USERS_PAYLOAD_PATH. *)
Theorem job_env_shape r v p :
  ∃ c mid, container_of (job WorkerImage r v p).1 = Some c
           ∧ Container.Env c
             = Slice (WORKER_ID :: mid ++ elems (ToK8sEnvVar (rTelemetryConfig r)))
           ∧ (length mid ≤ 1)%nat
           ∧ ∀ e, e ∈ mid → EnvVar.Name e = "USERS_PAYLOAD_PATH".
Proof.
  unfold container_of.
  destruct (job_Spec WorkerImage r v p) as (limits & requests & ->). cbn.
  eexists. eexists. split; [reflexivity|]. cbn. split; [reflexivity|].
  destruct (LoadTestSpec.SecretMount (LoadTest.Spec v)) as [sm|]; cbn.
  - split; [lia|]. by intros e ->%list_elem_of_singleton.
  - split; [lia|]. by intros e ?%elem_of_nil.
Qed.

(** X13: with a secret mount the built job has one volume, backed by
    the secret of the mount and named after it, its container has one
    mount of that name at the mount point, and the value of
    USERS_PAYLOAD_PATH is the mount point, a slash and usersFile; when
    usersFile is not empty nothing is handed to the logger. *)
Theorem job_secret_mount r v p sm :
  LoadTestSpec.SecretMount (LoadTest.Spec v) = Some sm →
  let j := (job WorkerImage r v p).1 in
  volumes_of j
  = Slice [ {| Volume.Name := SecretMount.Name sm;
               Volume.VolumeSource :=
                 {| VolumeSource.Secret :=
                      Some {| SecretVolumeSource.SecretName := SecretMount.Name sm |} |} |} ]
  ∧ (∃ c, container_of j = Some c
          ∧ Container.VolumeMounts c
            = Slice [ {| VolumeMount.Name := SecretMount.Name sm;
                         VolumeMount.MountPath := SecretMount.MountPoint sm |} ]
          ∧ elems (Container.Env c) !! 1%nat
            = Some {| EnvVar.Name := "USERS_PAYLOAD_PATH";
                      EnvVar.Value := SecretMount.MountPoint sm +:+ "/"
                                      +:+ LoadTestSpec.UsersFile (LoadTest.Spec v);
                      EnvVar.ValueFrom := None |})
  ∧ (LoadTestSpec.UsersFile (LoadTest.Spec v) ≠ "" →
     logged (job WorkerImage r v p).2 = logged p).
Proof.
  intros Hsm. cbn zeta.
  pose proof (job_logged WorkerImage r v p) as Hlog.
  destruct (job_Spec WorkerImage r v p) as (limits & requests & HS).
  cbn zeta in HS. rewrite Hsm in HS, Hlog.
  unfold volumes_of, container_of. rewrite HS. split; [done|]. split.
  - eexists. split; [reflexivity|]. done.
  - intros Hfile. rewrite bool_decide_eq_false_2 in Hlog by done.
    by rewrite app_nil_r in Hlog.
Qed.

(** X14: with a secretEnvSource that is not empty, the env-from list
    of the built container has one entry, which refers to the secret of
    that name. *)
Theorem job_secret_env_source r v p :
  LoadTestSpec.SecretEnvSource (LoadTest.Spec v) ≠ "" →
  ∃ c, container_of (job WorkerImage r v p).1 = Some c
       ∧ Container.EnvFrom c
         = Slice [ {| EnvFromSource.SecretRef :=
                        Some {| SecretEnvSource.Name :=
                                  LoadTestSpec.SecretEnvSource (LoadTest.Spec v) |} |} ].
Proof.
  intros Hsrc. unfold container_of.
  destruct (job_Spec WorkerImage r v p) as (limits & requests & ->). cbn.
  eexists. split; [reflexivity|]. cbn. by rewrite bool_decide_eq_true_2.
Qed.

(** X15: without a secret mount [job] hands nothing to the logger. *)
Theorem job_silent_without_mount r v p :
  LoadTestSpec.SecretMount (LoadTest.Spec v) = None →
  logged (job WorkerImage r v p).2 = logged p.
Proof.
  intros Hsm. rewrite job_logged, Hsm. apply app_nil_r.
Qed.

End MoreJobProperties.

(** ** More on ensureJob *)

(** X16: every run of [ensureJob] starts with one lookup and makes
    after it at most one call, the creation of the job it was given,
    and that only after the lookup failed with not-found. *)
Theorem ensureJob_calls {C} (r : LoadTestReconciler C) instance job (w : World C) :
  let out := ensureJob r instance job w in
  calls out.2 = calls w ++ [CallGet (lookup_key instance job)]
  ∨ (calls out.2 = calls w ++ [CallGet (lookup_key instance job); CallCreate job]
     ∧ ∃ e c1, client_Get (rClient r) (LoadTest.Namespace instance, job_Name job)
                 (cluster w) = (inr e, c1)
               ∧ IsNotFound e = true).
Proof.
  cbn zeta. rewrite ensureJob_cases.
  destruct (client_Get _ _ _) as [[found|e] c1]; [by left|].
  destruct (IsNotFound e) eqn:Hnf; [|by left].
  right. split; [|by eauto]. by destruct (client_Create _ _ _) as [[e'|] c2].
Qed.

(** X17: [ensureJob] records an event only when it has created the
    job, and then the one event Created that names the job; when the
    job is found or an error is returned, no event is recorded. *)
Theorem ensureJob_event {C} (r : LoadTestReconciler C) instance job (w : World C) :
  let out := ensureJob r instance job w in
  (events out.2 = events w
   ∧ (is_Some out.1.2 ∨ calls out.2 = calls w ++ [CallGet (lookup_key instance job)]))
  ∨ (events out.2 = events w ++ [created_event instance job]
     ∧ out.1 = (None, None)
     ∧ calls out.2 = calls w ++ [CallGet (lookup_key instance job); CallCreate job]).
Proof.
  cbn zeta. rewrite ensureJob_cases.
  destruct (client_Get _ _ _) as [[found|e] c1]; [left; split; [done|by right]|].
  destruct (IsNotFound e).
  - destruct (client_Create _ _ _) as [[e'|] c2]; [|by right].
    left. split; [done|]. left. by eexists.
  - left. split; [done|]. left. by eexists.
Qed.

(** X18: an error that [ensureJob] returns is also the error of the
    last entry it hands to the logger; a run that returns no error
    hands no error to the logger; and no run touches a resource map. *)
Theorem ensureJob_logs {C} (r : LoadTestReconciler C) instance job (w : World C) :
  let out := ensureJob r instance job w in
  (∀ e, out.1.2 = Some e →
        ∃ entry, last (logged (proc out.2)) = Some entry ∧ log_error entry = Some e)
  ∧ (out.1.2 = None →
     ∀ entry, entry ∈ logged (proc out.2) →
              entry ∈ logged (proc w) ∨ log_error entry = None)
  ∧ maps (proc out.2) = maps (proc w).
Proof.
  cbn zeta. rewrite ensureJob_cases.
  destruct (client_Get _ _ _) as [[found|e] c1].
  { cbn. split_and!; [done| |done]. intros _ entry Hin. by left. }
  destruct (IsNotFound e); [destruct (client_Create _ _ _) as [[e'|] c2]|];
    cbn [fst snd proc add_log logged maps]; split_and!; try done.
  - intros e0 [= <-]. eexists. by rewrite last_snoc.
  - intros _ entry [Hin| ->%list_elem_of_singleton]%elem_of_app; [by left|by right].
  - intros e0 [= <-]. eexists. by rewrite last_snoc.
Qed.

(** X19: on the cluster in memory [ensureJob] changes and removes
    nothing: every object that was there is there as it was, and the
    only object that can be new is the job it was given, under the name
    space and the name of that job. *)
Theorem ensureJob_keeps_objects (r : LoadTestReconciler (gmap (string * string) Job.t))
    instance job w key :
  rClient r = mem_client →
  let out := ensureJob r instance job w in
  (∀ obj, cluster w !! key = Some obj → cluster out.2 !! key = Some obj)
  ∧ (cluster w !! key = None → is_Some (cluster out.2 !! key) →
     key = (job_Namespace job, job_Name job) ∧ cluster out.2 !! key = Some job).
Proof.
  intros Hclient. cbn zeta. rewrite ensureJob_cases, Hclient.
  cbn [client_Get client_Create mem_client]. unfold mem_Get.
  destruct (cluster w !! (LoadTest.Namespace instance, job_Name job)) as [found|].
  { cbn [snd cluster]. split; [done|]. intros -> [? [=]]. }
  unfold IsNotFound. cbn [reason]. rewrite bool_decide_eq_true_2 by done.
  unfold mem_Create. fold (job_Namespace job) (job_Name job).
  destruct (cluster w !! (job_Namespace job, job_Name job)) as [other|] eqn:Hjob;
    cbn [snd cluster].
  { split; [done|]. intros -> [? [=]]. }
  destruct (decide (key = (job_Namespace job, job_Name job))) as [->|Hne].
  - rewrite lookup_insert_eq. split; [|done]. intros obj Hobj. congruence.
  - rewrite lookup_insert_ne by done. split; [done|]. intros -> [? [=]].
Qed.

(** X20: the lookup is made in the name space of the LoadTest and the
    creation in the name space of the job.  When the two differ, a
    second run on the cluster in memory does not find the job that the
    first run created, tries to create it again, and returns the
    already-exists error of the cluster. *)
Theorem ensureJob_namespace_mismatch
    (r : LoadTestReconciler (gmap (string * string) Job.t)) instance job w :
  rClient r = mem_client →
  job_Namespace job ≠ LoadTest.Namespace instance →
  cluster w !! (LoadTest.Namespace instance, job_Name job) = None →
  cluster w !! (job_Namespace job, job_Name job) = None →
  let out1 := ensureJob r instance job w in
  let out2 := ensureJob r instance job out1.2 in
  out1.1 = (None, None)
  ∧ cluster out1.2 = <[(job_Namespace job, job_Name job) := job]> (cluster w)
  ∧ out2.1 = (Some Result.zero,
              Some {| reason := StatusReasonAlreadyExists; message := "already exists" |})
  ∧ cluster out2.2 = cluster out1.2.
Proof.
  intros Hclient Hns Hget Hjob. cbn zeta.
  assert (ensureJob r instance job w
          = ((None, None),
             {| proc := add_log {| log_error := None; log_msg := "Creating a new Job";
                                   log_kvs := job_kvs job |} (proc w);
                cluster := <[(job_Namespace job, job_Name job) := job]> (cluster w);
                calls := calls w ++ [CallGet (lookup_key instance job); CallCreate job];
                events := events w ++ [created_event instance job] |})) as Hrun1.
  { rewrite ensureJob_cases, Hclient. cbn [client_Get client_Create mem_client].
    unfold mem_Get. rewrite Hget. unfold IsNotFound. cbn [reason].
    rewrite bool_decide_eq_true_2 by done.
    unfold mem_Create. fold (job_Namespace job) (job_Name job). by rewrite Hjob. }
  rewrite Hrun1. cbn [fst snd cluster]. split; [done|]. split; [done|].
  rewrite ensureJob_cases, Hclient. cbn [client_Get client_Create mem_client cluster].
  unfold mem_Get. rewrite lookup_insert_ne by congruence. rewrite Hget.
  unfold IsNotFound. cbn [reason]. rewrite bool_decide_eq_true_2 by done.
  unfold mem_Create. fold (job_Namespace job) (job_Name job).
  by rewrite lookup_insert_eq.
Qed.

Lemma creations_app (a b : list ApiCall) :
  creations (a ++ b) = (creations a + creations b)%nat.
Proof.
  induction a as [|[key|obj] a IH]; cbn [app creations]; [done|done|].
  by rewrite IH.
Qed.

(** X21: on the cluster in memory, for a job that is in the name
    space of the LoadTest, any number of runs one after the other
    creates the job at most once, and after the first run the job, or
    the object that was there under its name, is in the cluster. *)
Theorem ensureJob_times_creates_once
    (r : LoadTestReconciler (gmap (string * string) Job.t)) instance job w (n : nat) :
  rClient r = mem_client →
  job_Namespace job = LoadTest.Namespace instance →
  let wn := ensureJob_times n r instance job w in
  (creations (calls wn) ≤ creations (calls w) + 1)%nat
  ∧ ((0 < n)%nat → is_Some (cluster wn !! (job_Namespace job, job_Name job))).
Proof.
  intros Hclient Hns. cbn zeta.
  assert (creations (calls (ensureJob_times n r instance job w))
          = (creations (calls w)
              + (if cluster (ensureJob_times n r instance job w)
                      !! (job_Namespace job, job_Name job) is Some _ then
                   (if cluster w !! (job_Namespace job, job_Name job) is Some _ then 0
                    else if n is O then 0 else 1)
                 else 0))%nat
          ∧ ((0 < n)%nat → is_Some (cluster (ensureJob_times n r instance job w)
                                !! (job_Namespace job, job_Name job)))
          ∧ (is_Some (cluster w !! (job_Namespace job, job_Name job)) →
             is_Some (cluster (ensureJob_times n r instance job w)
                        !! (job_Namespace job, job_Name job)))) as (Hcount & Hin & _).
  { induction n as [|n (IHc & IHin & IHkeep)].
    - cbn [ensureJob_times]. split_and!; [|lia|done].
      destruct (cluster w !! _); lia.
    - cbn [ensureJob_times].
      set (wn := ensureJob_times n r instance job w) in *.
      rewrite ensureJob_cases, Hclient. cbn [client_Get client_Create mem_client].
      unfold mem_Get. rewrite <- Hns. fold (job_Name job).
      destruct (cluster wn !! (job_Namespace job, job_Name job)) as [found|] eqn:Hfound.
      + cbn [snd cluster calls]. rewrite Hfound, creations_app, IHc. cbn [creations].
        split_and!; [|by eauto|by eauto].
        destruct (cluster w !! _) as [obj|] eqn:Hw; [lia|].
        destruct n as [|n]; [|lia]. cbn [ensureJob_times] in wn. subst wn. congruence.
      + unfold IsNotFound. cbn [reason]. rewrite bool_decide_eq_true_2 by done.
        unfold mem_Create. fold (job_Namespace job) (job_Name job). rewrite Hfound.
        cbn [snd cluster calls]. rewrite lookup_insert_eq, creations_app, IHc.
        cbn [creations].
        destruct (cluster w !! _) as [obj|] eqn:Hw.
        * destruct IHkeep as [? [=]]; by eauto.
        * split_and!; [lia|by eauto|by intros [? [=]]]. }
  split; [|done]. rewrite Hcount.
  repeat match goal with |- context [match ?x with _ => _ end] => destruct x end; lia.
Qed.

(** ** More on labels *)

(** X22: the label set tells the LoadTest and the component: two
    label sets are the same only for the same name and the same
    component, so that the labels of a job and those of its pods
    differ, and those of two LoadTests differ. *)
Theorem labels_inj (v v' : LoadTest.t) (component component' : string) :
  labels v component = labels v' component' →
  LoadTest.Name v = LoadTest.Name v' ∧ component = component'.
Proof.
  intros Heq.
  pose proof (f_equal (λ m : gmap string string, m !! "artillery.io/test-name") Heq)
    as Hname.
  pose proof (f_equal (λ m : gmap string string, m !! "artillery.io/component") Heq)
    as Hcomp.
  unfold labels in Hname, Hcomp. cbn beta in Hname, Hcomp.
  rewrite !lookup_insert_eq in Hname.
  rewrite !(lookup_insert_ne _ "artillery.io/test-name") in Hcomp by done.
  rewrite !lookup_insert_eq in Hcomp.
  split; congruence.
Qed.

(** ** The further properties at sample objects *)

Lemma merge_in_place_witness :
  live quota_proc (map_at 2)
  ∧ (MergePreservingExistingKeys (map_at 1) (map_at 2) quota_proc).1 = map_at 1
  ∧ maps (MergePreservingExistingKeys (map_at 1) (map_at 2) quota_proc).2 !! 2%positive
    = maps quota_proc !! 2%positive.
Proof.
  assert (live quota_proc (map_at 2)) as Hlive.
  { apply elem_of_dom. eexists. vm_compute. reflexivity. }
  split; [exact Hlive|].
  destruct (merge_in_place quota_proc 1 (map_at 2) Hlive) as (Hr & _ & Hother).
  split; [exact Hr|]. apply Hother. discriminate.
Defined.

Lemma merge_nil_copies_witness :
  live quota_proc (map_at 2)
  ∧ ∃ d, (MergePreservingExistingKeys nil_map (map_at 2) quota_proc).1 = map_at d
         ∧ d ≠ 2%positive
         ∧ content (MergePreservingExistingKeys nil_map (map_at 2) quota_proc).2 (map_at d)
           = content quota_proc (map_at 2).
Proof.
  assert (live quota_proc (map_at 2)) as Hlive.
  { apply elem_of_dom. eexists. vm_compute. reflexivity. }
  split; [exact Hlive|].
  destruct (merge_nil_copies quota_proc 2 Hlive) as (d & Hr & _ & Hne & Hc & _).
  exists d. split; [exact Hr|]. split; [exact Hne|exact Hc].
Defined.

Lemma merge_nothing_witness :
  content quota_proc nil_map = ∅
  ∧ MergePreservingExistingKeys (map_at 1) nil_map quota_proc = (map_at 1, quota_proc).
Proof.
  split; [reflexivity|]. exact (merge_nothing quota_proc 1 nil_map eq_refl).
Defined.

Lemma merge_twice_witness :
  let r := (MergePreservingExistingKeys (map_at 1) (map_at 2) quota_proc).1 in
  let p1 := (MergePreservingExistingKeys (map_at 1) (map_at 2) quota_proc).2 in
  live quota_proc (map_at 2)
  ∧ MergePreservingExistingKeys r (map_at 2) p1 = (r, p1).
Proof.
  cbn zeta.
  assert (live quota_proc (map_at 2)) as Hlive.
  { apply elem_of_dom. eexists. vm_compute. reflexivity. }
  split; [exact Hlive|]. exact (merge_twice quota_proc (map_at 1) (map_at 2) Hlive).
Defined.

Lemma range_order_irrelevant_witness :
  let entries := reverse (map_to_list (content quota_proc (map_at 2))) in
  entries ≡ₚ map_to_list (content quota_proc (map_at 2))
  ∧ content (merge_loop 1 entries quota_proc).2 (map_at 1)
    = content quota_proc (map_at 1) ∪ content quota_proc (map_at 2).
Proof.
  cbn zeta.
  assert (reverse (map_to_list (content quota_proc (map_at 2)))
          ≡ₚ map_to_list (content quota_proc (map_at 2))) as Hperm
    by apply reverse_Permutation.
  split; [exact Hperm|].
  exact (range_order_irrelevant quota_proc 1 (map_at 2) _ Hperm).
Defined.

Lemma job_limits_witness :
  let v := sample_loadtest spec_with_limits in
  let out := job sample_image (sample_reconciler mem_client) v quota_proc in
  live quota_proc (override_of (LoadTest.Spec v) ResourceRequirements.Limits)
  ∧ live quota_proc (override_of (LoadTest.Spec v) ResourceRequirements.Requests)
  ∧ ∃ c, container_of out.1 = Some c
         ∧ ResourceRequirements.Limits (Container.Resources c) = map_at 1
         ∧ content out.2 (map_at 1) = content quota_proc (map_at 1) ∪ default_limits.
Proof.
  cbn zeta.
  assert (live quota_proc (map_at 1)) as Hlive.
  { apply elem_of_dom. eexists. vm_compute. reflexivity. }
  split; [exact Hlive|]. split; [exact I|].
  destruct (job_limits sample_image (sample_reconciler mem_client)
              (sample_loadtest spec_with_limits) quota_proc Hlive I)
    as (c & Hc & Hlim & Hcontent).
  exists c. split; [exact Hc|]. split; [exact Hlim|].
  rewrite Hlim in Hcontent. exact Hcontent.
Defined.

Lemma job_requests_witness :
  let v := sample_loadtest spec_with_limits in
  let out := job sample_image (sample_reconciler mem_client) v quota_proc in
  live quota_proc (override_of (LoadTest.Spec v) ResourceRequirements.Limits)
  ∧ live quota_proc (override_of (LoadTest.Spec v) ResourceRequirements.Requests)
  ∧ ∃ c, container_of out.1 = Some c
         ∧ content out.2 (ResourceRequirements.Requests (Container.Resources c))
           = default_requests.
Proof.
  cbn zeta.
  assert (live quota_proc (map_at 1)) as Hlive.
  { apply elem_of_dom. eexists. vm_compute. reflexivity. }
  split; [exact Hlive|]. split; [exact I|].
  destruct (job_requests sample_image (sample_reconciler mem_client)
              (sample_loadtest spec_with_limits) quota_proc Hlive I)
    as (c & Hc & _ & _ & Hcontent).
  exists c. split; [exact Hc|exact Hcontent].
Defined.

Lemma job_frame_witness :
  let v := sample_loadtest spec_with_limits in
  2%positive ∈ dom (maps quota_proc)
  ∧ map_at 2 ≠ override_of (LoadTest.Spec v) ResourceRequirements.Limits
  ∧ map_at 2 ≠ override_of (LoadTest.Spec v) ResourceRequirements.Requests
  ∧ maps (job sample_image (sample_reconciler mem_client) v quota_proc).2 !! 2%positive
    = maps quota_proc !! 2%positive.
Proof.
  cbn zeta.
  assert (2%positive ∈ dom (maps quota_proc)) as Hin.
  { apply elem_of_dom. eexists. vm_compute. reflexivity. }
  assert (map_at 2 ≠ override_of (LoadTest.Spec (sample_loadtest spec_with_limits))
                       ResourceRequirements.Limits) as HneL by discriminate.
  assert (map_at 2 ≠ override_of (LoadTest.Spec (sample_loadtest spec_with_limits))
                       ResourceRequirements.Requests) as HneR by discriminate.
  split; [exact Hin|]. split; [exact HneL|]. split; [exact HneR|].
  exact (job_frame sample_image (sample_reconciler mem_client)
           (sample_loadtest spec_with_limits) quota_proc 2 Hin HneL HneR).
Defined.

Lemma job_secret_mount_witness :
  let v := sample_loadtest spec_mount_with_file in
  let j := (job sample_image (sample_reconciler mem_client) v empty_proc).1 in
  LoadTestSpec.SecretMount (LoadTest.Spec v) = Some creds_mount
  ∧ LoadTestSpec.UsersFile (LoadTest.Spec v) ≠ ""
  ∧ (∃ c, container_of j = Some c
          ∧ (EnvVar.Value <$> elems (Container.Env c) !! 1%nat) = Some "/data/users.csv")
  ∧ logged (job sample_image (sample_reconciler mem_client) v empty_proc).2 = [].
Proof.
  cbn zeta.
  assert (LoadTestSpec.UsersFile (LoadTest.Spec (sample_loadtest spec_mount_with_file))
          ≠ "") as Hfile by discriminate.
  split; [reflexivity|]. split; [exact Hfile|].
  destruct (job_secret_mount sample_image (sample_reconciler mem_client)
              (sample_loadtest spec_mount_with_file) empty_proc creds_mount eq_refl)
    as (_ & (c & Hc & _ & Henv) & Hlog).
  split; [|exact (Hlog Hfile)].
  exists c. split; [exact Hc|]. rewrite Henv. reflexivity.
Defined.

Lemma job_secret_env_source_witness :
  let v := sample_loadtest spec_mount_with_file in
  LoadTestSpec.SecretEnvSource (LoadTest.Spec v) ≠ ""
  ∧ ∃ c, container_of (job sample_image (sample_reconciler mem_client) v empty_proc).1
         = Some c
         ∧ Container.EnvFrom c
           = Slice [ {| EnvFromSource.SecretRef :=
                          Some {| SecretEnvSource.Name := "api-keys" |} |} ].
Proof.
  cbn zeta.
  assert (LoadTestSpec.SecretEnvSource (LoadTest.Spec (sample_loadtest spec_mount_with_file))
          ≠ "") as Hsrc by discriminate.
  split; [exact Hsrc|].
  exact (job_secret_env_source sample_image (sample_reconciler mem_client)
           (sample_loadtest spec_mount_with_file) empty_proc Hsrc).
Defined.

Lemma job_silent_without_mount_witness :
  let v := sample_loadtest spec_file_no_mount in
  LoadTestSpec.SecretMount (LoadTest.Spec v) = None
  ∧ logged (job sample_image (sample_reconciler mem_client) v empty_proc).2 = [].
Proof.
  cbn zeta. split; [reflexivity|].
  exact (job_silent_without_mount sample_image (sample_reconciler mem_client)
           (sample_loadtest spec_file_no_mount) empty_proc eq_refl).
Defined.

Lemma ensureJob_keeps_objects_witness :
  let v := sample_loadtest (spec_with_count 3) in
  let r := sample_reconciler mem_client in
  let w := {| proc := empty_proc; cluster := <[("default", "other") := Job.zero]> ∅;
              calls := []; events := [] |} in
  let out := ensureJob r v (sample_job (spec_with_count 3)) w in
  rClient r = mem_client
  ∧ cluster w !! ("default", "other") = Some Job.zero
  ∧ cluster out.2 !! ("default", "other") = Some Job.zero.
Proof.
  cbn zeta. split; [reflexivity|].
  assert (<[("default", "other") := Job.zero]> (∅ : gmap (string * string) Job.t)
            !! ("default", "other") = Some Job.zero) as Hin by apply lookup_insert_eq.
  split; [exact Hin|].
  exact (proj1 (ensureJob_keeps_objects (sample_reconciler mem_client)
                  (sample_loadtest (spec_with_count 3)) (sample_job (spec_with_count 3))
                  {| proc := empty_proc;
                     cluster := <[("default", "other") := Job.zero]> ∅;
                     calls := []; events := [] |}
                  ("default", "other") eq_refl) Job.zero Hin).
Defined.

Lemma ensureJob_namespace_mismatch_witness :
  let v := sample_loadtest (spec_with_count 3) in
  let r := sample_reconciler mem_client in
  let out1 := ensureJob r v stray_job empty_world in
  rClient r = mem_client
  ∧ job_Namespace stray_job ≠ LoadTest.Namespace v
  ∧ cluster empty_world !! (LoadTest.Namespace v, job_Name stray_job) = None
  ∧ cluster empty_world !! (job_Namespace stray_job, job_Name stray_job) = None
  ∧ out1.1 = (None, None)
  ∧ (ensureJob r v stray_job out1.2).1
    = (Some Result.zero,
       Some {| reason := StatusReasonAlreadyExists; message := "already exists" |}).
Proof.
  cbn zeta.
  assert (job_Namespace stray_job
          ≠ LoadTest.Namespace (sample_loadtest (spec_with_count 3))) as Hns
    by discriminate.
  split; [reflexivity|]. split; [exact Hns|]. split; [reflexivity|]. split; [reflexivity|].
  destruct (ensureJob_namespace_mismatch (sample_reconciler mem_client)
              (sample_loadtest (spec_with_count 3)) stray_job empty_world
              eq_refl Hns eq_refl eq_refl) as (H1 & _ & H2 & _).
  split; [exact H1|exact H2].
Defined.

Lemma ensureJob_times_creates_once_witness :
  let v := sample_loadtest (spec_with_count 3) in
  let j := sample_job (spec_with_count 3) in
  let r := sample_reconciler mem_client in
  rClient r = mem_client
  ∧ job_Namespace j = LoadTest.Namespace v
  ∧ (creations (calls (ensureJob_times 3 r v j empty_world)) ≤ 1)%nat.
Proof.
  cbn zeta. split; [reflexivity|]. split; [reflexivity|].
  exact (proj1 (ensureJob_times_creates_once (sample_reconciler mem_client)
                  (sample_loadtest (spec_with_count 3)) (sample_job (spec_with_count 3))
                  empty_world 3 eq_refl eq_refl)).
Defined.

Lemma labels_inj_witness :
  let v := sample_loadtest (spec_with_count 3) in
  labels v "loadtest-worker" = labels v "loadtest-worker"
  ∧ LoadTest.Name v = LoadTest.Name v.
Proof.
  cbn zeta. split; [reflexivity|].
  exact (proj1 (labels_inj (sample_loadtest (spec_with_count 3))
                  (sample_loadtest (spec_with_count 3))
                  "loadtest-worker" "loadtest-worker" eq_refl)).
Defined.
